(** * cirq.study.resolver: ParamResolver

    A shallow embedding of [src/cirq/study/resolver.py] and the properties
    of [ParamResolver] that its specification states.

    The resolver consumes two collaborators that are not part of the
    repository: the sympy algebra engine (symbols, [subs], [free_symbols],
    [im], conversion to [float] and [complex]) and a few Python builtins
    ([dict], [frozenset], [hash]).  The engine is an interface here
    ([Sympy]); the resolver is written once over that interface, and a small
    concrete engine ([SympyModel]) instantiates it for closed examples. *)

From Stdlib Require Import List String Ascii Bool Arith ZArith QArith Lia Permutation.
Import ListNotations.

Local Open Scope nat_scope.
Local Open Scope list_scope.

(** ** Python values *)

(** Python numbers.  A [float] is represented by the rational it denotes and
    a [complex] by its two components; rounding is outside the model. *)
Inductive number : Type :=
| PyInt (z : Z)
| PyFloat (x : Q)
| PyComplex (re im : Q).

(** The objects that reach the resolver: numbers, strings, sympy expressions
    ([sympy.Basic]) and any other Python object, known by its identity. *)
Inductive pyvalue (basic : Type) : Type :=
| VNum (n : number)
| VStr (s : string)
| VBasic (e : basic)
| VObj (id : nat).

Arguments VNum {basic} n.
Arguments VStr {basic} s.
Arguments VBasic {basic} e.
Arguments VObj {basic} id.

(** Keys of [ParamDictType]: [Union[str, sympy.Symbol]]. *)
Inductive key (basic : Type) : Type :=
| KStr (s : string)
| KBasic (e : basic).

Arguments KStr {basic} s.
Arguments KBasic {basic} e.

(** A Python [dict]: the entries in insertion order, keys pairwise distinct. *)
Definition dict (basic : Type) : Type := list (key basic * pyvalue basic).

(** ** The algebra engine *)

(** What [isinstance] tells about a sympy expression: an instance of
    [numbers.Number] (sympy registers its number classes there), a
    [sympy.Symbol] with its [name], or any other expression. *)
Inductive basic_kind : Type :=
| IsNumber
| IsSymbol (name : string)
| IsExpr.

Class Sympy (basic : Type) : Type := {
  (* structural equality of expressions, [==] and [!=] *)
  basic_eq_dec : forall a b : basic, {a = b} + {a <> b};
  (* [sympy.Symbol(name)] *)
  Symbol : string -> basic;
  kind_of : basic -> basic_kind;
  (* [expr.subs(param_dict)] *)
  subs : basic -> dict basic -> basic;
  (* [expr.free_symbols] *)
  free_symbols : basic -> list basic;
  (* [sympy.im(expr)] and the truth value of an expression *)
  im : basic -> basic;
  truthy : basic -> bool;
  (* [complex(expr)] and [float(expr)] *)
  complex : basic -> Q * Q;
  float : basic -> Q;
  (* [expr == n] for a Python number [n] *)
  eq_number : basic -> number -> bool
}.

Definition number_re (n : number) : Q :=
  match n with
  | PyInt z => inject_Z z
  | PyFloat x => x
  | PyComplex re _ => re
  end.

Definition number_im (n : number) : Q :=
  match n with
  | PyComplex _ i => i
  | _ => 0%Q
  end.

(** [m == n] on Python numbers compares the numeric values. *)
Definition number_eqb (m n : number) : bool :=
  Qeq_bool (number_re m) (number_re n) && Qeq_bool (number_im m) (number_im n).

Section Resolver.

Context {basic : Type} {engine : Sympy basic}.

Definition basic_eqb (a b : basic) : bool :=
  if basic_eq_dec a b then true else false.

(** Python's [==] on the values a table holds. *)
Definition py_eq (a b : pyvalue basic) : bool :=
  match a, b with
  | VNum m, VNum n => number_eqb m n
  | VStr s, VStr t => String.eqb s t
  | VBasic e, VBasic f => basic_eqb e f
  | VBasic e, VNum n => eq_number e n
  | VNum n, VBasic e => eq_number e n
  | VObj i, VObj j => Nat.eqb i j
  | _, _ => false
  end.

(** Equality of dictionary keys: a string never equals a symbol. *)
Definition key_eqb (a b : key basic) : bool :=
  match a, b with
  | KStr s, KStr t => String.eqb s t
  | KBasic e, KBasic f => basic_eqb e f
  | _, _ => false
  end.

(** ** The builtin [dict] *)

(* d.get(k) *)
Fixpoint dict_get (d : dict basic) (k : key basic) : option (pyvalue basic) :=
  match d with
  | [] => None
  | (k', v) :: d' => if key_eqb k k' then Some v else dict_get d' k
  end.

(* k in d *)
Definition dict_contains (d : dict basic) (k : key basic) : bool :=
  match dict_get d k with
  | Some _ => true
  | None => false
  end.

(* d[k] = v: an existing key keeps its place (and its key object) *)
Fixpoint dict_set (d : dict basic) (k : key basic) (v : pyvalue basic) : dict basic :=
  match d with
  | [] => [(k, v)]
  | (k', v') :: d' =>
      if key_eqb k k' then (k', v) :: d' else (k', v') :: dict_set d' k v
  end.

(* list(d.items()) *)
Definition dict_items (d : dict basic) : list (key basic * pyvalue basic) := d.

(* dict(pairs) *)
Definition dict_of_items (l : list (key basic * pyvalue basic)) : dict basic :=
  fold_left (fun d kv => dict_set d (fst kv) (snd kv)) l [].

(* list(iter(d)) *)
Definition dict_keys (d : dict basic) : list (key basic) := map fst d.

(* the invariant of a dict: no two entries have equal keys *)
Fixpoint dict_wf (d : dict basic) : bool :=
  match d with
  | [] => true
  | (k, _) :: d' => negb (dict_contains d' k) && dict_wf d'
  end.

(* d1 == d2 *)
Definition dict_eq (a b : dict basic) : bool :=
  Nat.eqb (List.length a) (List.length b) &&
  forallb (fun kv => match dict_get b (fst kv) with
                     | Some w => py_eq (snd kv) w
                     | None => false
                     end) a.

(** ** ParamResolver *)

Record ParamResolver : Type := {
  param_dict : dict basic;
  _param_hash : option Z
}.

(* isinstance(value, numbers.Number) *)
Definition is_Number (value : pyvalue basic) : bool :=
  match value with
  | VNum _ => true
  | VBasic e => match kind_of e with IsNumber => true | _ => false end
  | _ => false
  end.

(* isinstance(resolved, (sympy.Basic, str)) *)
Definition is_Basic_or_str (resolved : pyvalue basic) : bool :=
  match resolved with
  | VBasic _ | VStr _ => true
  | _ => false
  end.

(** Lines 100-105 of [value_of]: the key under which the input is looked
    up.  Both membership tests run; the second assignment overwrites the
    first. *)
Definition exact_match_key (d : dict basic) (value : pyvalue basic)
  : option (key basic) :=
  match value with
  | VBasic e =>
      match kind_of e with
      | IsSymbol name =>
          let key := if dict_contains d (KBasic e) then Some (KBasic e) else None in
          if dict_contains d (KStr name) then Some (KStr name) else key
      | _ => None
      end
  | _ => None
  end.

(** Lines 106-109: the bound value, when it is returned directly. *)
Definition exact_match (d : dict basic) (value : pyvalue basic)
  : option (pyvalue basic) :=
  match exact_match_key d value with
  | Some k =>
      match dict_get d k with
      | Some resolved => if is_Basic_or_str resolved then None else Some resolved
      | None => None
      end
  | None => None
  end.

(** Lines 115-125: the [while] loop.  One unit of [fuel] pays for one call
    of [subs]; [None] means the loop is still running when the fuel is
    spent. *)
Fixpoint subs_loop (fuel : nat) (d : dict basic) (value : basic)
  : option (pyvalue basic) :=
  match fuel with
  | O => None
  | S fuel' =>
      let v := subs value d in
      match free_symbols v with
      | _ :: _ =>
          if negb (basic_eqb v value) then subs_loop fuel' d v
          else Some (VBasic v)
      | [] =>
          if truthy (im v) then Some (VNum (PyComplex (fst (complex v)) (snd (complex v))))
          else Some (VNum (PyFloat (float v)))
      end
  end.

Definition value_of (fuel : nat) (self : ParamResolver) (value : pyvalue basic)
  : option (pyvalue basic) :=
  if is_Number value then Some value
  else
    let value := match value with
                 | VStr s => VBasic (Symbol s)
                 | _ => value
                 end in
    match exact_match (param_dict self) value with
    | Some resolved => Some resolved
    | None =>
        match value with
        | VBasic e => subs_loop fuel (param_dict self) e
        | _ => Some value
        end
    end.

Definition __iter__ (self : ParamResolver) : list (key basic) :=
  dict_keys (param_dict self).

Definition __bool__ (self : ParamResolver) : bool :=
  match param_dict self with
  | [] => false
  | _ :: _ => true
  end.

Definition __getitem__ (fuel : nat) (self : ParamResolver) (k : pyvalue basic)
  : option (pyvalue basic) :=
  value_of fuel self k.

(** *** The course of the loop *)

(* the expression the loop holds after [n] passes *)
Fixpoint iter_subs (n : nat) (d : dict basic) (e : basic) : basic :=
  match n with
  | O => e
  | S n' => iter_subs n' d (subs e d)
  end.

(* a pass over [e] leaves free symbols and changes the expression *)
Definition makes_progress (d : dict basic) (e : basic) : bool :=
  match free_symbols (subs e d) with
  | [] => false
  | _ :: _ => negb (basic_eqb (subs e d) e)
  end.

(* a pass over [e] leaves free symbols and changes nothing *)
Definition is_fixed_point (d : dict basic) (e : basic) : bool :=
  match free_symbols (subs e d) with
  | [] => false
  | _ :: _ => basic_eqb (subs e d) e
  end.

(* each of the first [n] passes makes progress *)
Fixpoint progress_steps (n : nat) (d : dict basic) (e : basic) : bool :=
  match n with
  | O => true
  | S n' => makes_progress d e && progress_steps n' d (subs e d)
  end.

(* the conversion of a result without free symbols, lines 123-125 *)
Definition classify (v : basic) : number :=
  if truthy (im v) then PyComplex (fst (complex v)) (snd (complex v))
  else PyFloat (float v).

(* the Python type of a number *)
Inductive number_type : Type := TInt | TFloat | TComplex.

Definition type_of (n : number) : number_type :=
  match n with
  | PyInt _ => TInt
  | PyFloat _ => TFloat
  | PyComplex _ _ => TComplex
  end.

(** *** Equality *)

(** The right operand of [==]: another resolver or a foreign object. *)
Inductive operand : Type :=
| OResolver (r : ParamResolver)
| OForeign (v : pyvalue basic).

Inductive eq_result : Type :=
| EqBool (b : bool)
| NotImplemented.

Definition __eq__ (self : ParamResolver) (other : operand) : eq_result :=
  match other with
  | OResolver o => EqBool (dict_eq (param_dict self) (param_dict o))
  | OForeign _ => NotImplemented
  end.

(* [self == other] between two resolvers, as [__ne__] evaluates it *)
Definition __ne__ (self other : ParamResolver) : bool :=
  match __eq__ self (OResolver other) with
  | EqBool b => negb b
  | NotImplemented => true
  end.

(** *** Hashing *)

Section Hashing.

(** [hash((k, v))] of one entry; [None] when the entry is unhashable and
    [hash] raises. *)
Variable hash_item : key basic * pyvalue basic -> option Z.

Definition item_eqb (a b : key basic * pyvalue basic) : bool :=
  key_eqb (fst a) (fst b) && py_eq (snd a) (snd b).

(** [frozenset(items)]: one representative of every class of equal items. *)
Fixpoint frozenset (l : list (key basic * pyvalue basic))
  : list (key basic * pyvalue basic) :=
  match l with
  | [] => []
  | x :: l' => x :: filter (fun y => negb (item_eqb y x)) (frozenset l')
  end.

Definition uhash (z : Z) : Z := (z mod 2 ^ 64)%Z.

(* the signed reading of a 64-bit word *)
Definition to_hash_t (u : Z) : Z :=
  (if u <? 2 ^ 63 then u else u - 2 ^ 64)%Z.

Definition shuffle_bits (h : Z) : Z :=
  uhash (Z.lxor (Z.lxor h 89869747) (uhash (Z.shiftl h 16)) * 3644798167).

(** The hash of a frozenset, after CPython: the entries' hashes are mixed
    and combined by xor, so that the order of the entries cannot matter;
    the number of entries is factored in and the bits dispersed. *)
Definition hash_entries (hs : list Z) : Z :=
  let h := fold_right (fun e acc => Z.lxor acc (shuffle_bits (uhash e))) 0%Z hs in
  let h := Z.lxor h (uhash ((Z.of_nat (List.length hs) + 1) * 1927868237)) in
  let h := Z.lxor h (Z.lxor (Z.shiftr h 11) (Z.shiftr h 25)) in
  let h := uhash (h * 69069 + 907133923) in
  to_hash_t (if (h =? 2 ^ 64 - 1)%Z then 590923713%Z else h).

Fixpoint hash_all (l : list (key basic * pyvalue basic)) : option (list Z) :=
  match l with
  | [] => Some []
  | x :: l' =>
      match hash_item x, hash_all l' with
      | Some h, Some hs => Some (h :: hs)
      | _, _ => None
      end
  end.

(* whether [hash] accepts an entry, and the hash it gives *)
Definition hashable (x : key basic * pyvalue basic) : bool :=
  match hash_item x with
  | Some _ => true
  | None => false
  end.

Definition hash_or_zero (x : key basic * pyvalue basic) : Z :=
  match hash_item x with
  | Some h => h
  | None => 0%Z
  end.

(* hash(frozenset(items)) *)
Definition hash_frozenset (l : list (key basic * pyvalue basic)) : option Z :=
  option_map hash_entries (hash_all (frozenset l)).

(** [__hash__] returns the hash and the resolver with its cache filled.
    When [hash] raises nothing is stored. *)
Definition __hash__ (self : ParamResolver) : option Z * ParamResolver :=
  match _param_hash self with
  | None =>
      match hash_frozenset (dict_items (param_dict self)) with
      | Some h => (Some h, {| param_dict := param_dict self; _param_hash := Some h |})
      | None => (None, self)
      end
  | Some h => (Some h, self)
  end.

(** The cache is coherent when it is empty or holds the hash of the table. *)
Definition cache_coherent (self : ParamResolver) : Prop :=
  _param_hash self = None \/
  _param_hash self = hash_frozenset (dict_items (param_dict self)).

End Hashing.

(** *** Construction *)

(** Resolvers are objects with an identity: the heap maps an address to the
    object allocated there, [None] while its attributes are not set. *)
Definition heap : Type := list (option ParamResolver).

(** The argument of the constructor, [ParamResolverOrSimilarType]. *)
Inductive ctor_arg : Type :=
| ArgNone
| ArgDict (d : dict basic)
| ArgResolver (a : nat).

(* the attributes [__init__] sets: the table, and no hash yet *)
Definition fresh_resolver (d : dict basic) : ParamResolver :=
  {| param_dict := d; _param_hash := None |}.

Definition heap_store (h : heap) (a : nat) (r : ParamResolver) : heap :=
  firstn a h ++ Some r :: skipn (S a) h.

Definition __new__ (h : heap) (param_dict : ctor_arg) : nat * heap :=
  match param_dict with
  | ArgResolver a => (a, h)
  | _ => (List.length h, h ++ [None])
  end.

(** [__init__] leaves an object that has [param_dict] alone.  The result is
    [None] for the two states the constructor cannot produce: [self] is not
    on the heap, or a resolver is to become the [param_dict] of a fresh
    object. *)
Definition __init__ (h : heap) (self : nat) (param_dict : ctor_arg) : option heap :=
  match nth_error h self with
  | Some (Some _) => Some h
  | Some None =>
      match param_dict with
      | ArgNone => Some (heap_store h self (fresh_resolver []))
      | ArgDict d => Some (heap_store h self (fresh_resolver d))
      | ArgResolver _ => None
      end
  | None => None
  end.

(** The call [ParamResolver(param_dict)]: [__new__], then [__init__] on the
    object it returned. *)
Definition new_ParamResolver (h : heap) (param_dict : ctor_arg) : option (nat * heap) :=
  let (self, h1) := __new__ h param_dict in
  match __init__ h1 self param_dict with
  | Some h2 => Some (self, h2)
  | None => None
  end.

(* every object on the heap has its attributes set *)
Definition heap_initialised (h : heap) : bool :=
  forallb (fun o => match o with Some _ => true | None => false end) h.

(* a resolver passed to the constructor is an object of the heap *)
Definition arg_valid (h : heap) (param_dict : ctor_arg) : bool :=
  match param_dict with
  | ArgResolver a => a <? List.length h
  | _ => true
  end.

(* the table the constructed resolver is to hold *)
Definition arg_table (h : heap) (arg : ctor_arg) : option (dict basic) :=
  match arg with
  | ArgNone => Some []
  | ArgDict d => Some d
  | ArgResolver a =>
      match nth_error h a with
      | Some (Some r) => Some (param_dict r)
      | _ => None
      end
  end.

(** *** Encoding *)

Record json_dict : Type := {
  cirq_type : string;
  json_param_dict : list (key basic * pyvalue basic)
}.

Definition _json_dict_ (self : ParamResolver) : json_dict :=
  {| cirq_type := "ParamResolver";
     json_param_dict := dict_items (param_dict self) |}.

Definition _from_json_dict_ (h : heap) (param_dict : list (key basic * pyvalue basic))
  : option (nat * heap) :=
  new_ParamResolver h (ArgDict (dict_of_items param_dict)).

End Resolver.

(** ** What the resolver expects of the engine *)

(** Facts about sympy on symbols: [Symbol(s)] is a symbol named [s], a
    symbol is its own free symbol, and substitution leaves a symbol alone
    when the table binds neither the symbol nor its name. *)
Record SympyLaws {basic : Type} (engine : Sympy basic) : Prop := {
  kind_of_Symbol : forall s, kind_of (Symbol s) = IsSymbol s;
  free_symbols_symbol :
    forall e name, kind_of e = IsSymbol name -> free_symbols e <> [];
  subs_unbound :
    forall e name d,
      kind_of e = IsSymbol name ->
      dict_contains d (KBasic e) = false ->
      dict_contains d (KStr name) = false ->
      subs e d = e
}.

(** The engine [engine] with another substitution function. *)
Definition with_subs {basic : Type} (engine : Sympy basic)
  (subs' : basic -> dict basic -> basic) : Sympy basic :=
  {| basic_eq_dec := basic_eq_dec;
     Symbol := Symbol;
     kind_of := kind_of;
     subs := subs';
     free_symbols := free_symbols;
     im := im;
     truthy := truthy;
     complex := complex;
     float := float;
     eq_number := eq_number |}.

(** ** A concrete engine

    A model of sympy on a fragment: symbols without assumptions, numbers,
    sums and products, kept unevaluated.  [subs] follows sympy's treatment
    of a dictionary: the pairs are sympified, pairs that change nothing are
    dropped, the old expressions are made unique, the pairs are ordered
    (larger expressions first, symbols by name) and applied one after the
    other. *)
Module SympyModel.

Inductive expr : Type :=
| Sym (name : string)
| Num (n : number)
| Add (a b : expr)
| Mul (a b : expr).

Definition Q_eq_dec (x y : Q) : {x = y} + {x <> y}.
Proof. decide equality; [apply Pos.eq_dec | apply Z.eq_dec]. Defined.

Definition number_eq_dec (m n : number) : {m = n} + {m <> n}.
Proof. decide equality; try apply Z.eq_dec; apply Q_eq_dec. Defined.

Definition expr_eq_dec (a b : expr) : {a = b} + {a <> b}.
Proof. decide equality; [apply string_dec | apply number_eq_dec]. Defined.

Definition expr_eqb (a b : expr) : bool :=
  if expr_eq_dec a b then true else false.

(* sympify(v); an object sympy cannot convert gives None *)
Definition sympify (v : pyvalue expr) : option expr :=
  match v with
  | VNum n => Some (Num n)
  | VStr s => Some (Sym s)
  | VBasic e => Some e
  | VObj _ => None
  end.

Definition sympify_key (k : key expr) : expr :=
  match k with
  | KStr s => Sym s
  | KBasic e => e
  end.

Fixpoint sympify_pairs (d : dict expr) : list (expr * expr) :=
  match d with
  | [] => []
  | (k, v) :: d' =>
      match sympify v with
      | Some new => (sympify_key k, new) :: sympify_pairs d'
      | None => sympify_pairs d'
      end
  end.

(* dict(sequence): a later pair for the same old expression replaces the value *)
Fixpoint assoc_set (l : list (expr * expr)) (old new : expr) : list (expr * expr) :=
  match l with
  | [] => [(old, new)]
  | (o, n) :: l' =>
      if expr_eqb old o then (o, new) :: l' else (o, n) :: assoc_set l' old new
  end.

Definition unique_pairs (l : list (expr * expr)) : list (expr * expr) :=
  fold_left (fun acc p => assoc_set acc (fst p) (snd p)) l [].

Fixpoint nodes (e : expr) : nat :=
  match e with
  | Sym _ | Num _ => 1
  | Add a b | Mul a b => S (nodes a + nodes b)
  end.

(* the order in which the pairs are applied *)
Definition sort_before (a b : expr) : bool :=
  if nodes b <? nodes a then true
  else if nodes a <? nodes b then false
  else match a, b with
       | Sym s, Sym t => String.leb s t
       | _, _ => true
       end.

Fixpoint insert_pair (p : expr * expr) (l : list (expr * expr)) : list (expr * expr) :=
  match l with
  | [] => [p]
  | q :: l' =>
      if sort_before (fst p) (fst q) then p :: q :: l' else q :: insert_pair p l'
  end.

Definition sort_pairs (l : list (expr * expr)) : list (expr * expr) :=
  fold_right insert_pair [] l.

(* every occurrence of [old] in [e] becomes [new] *)
Fixpoint replace (old new e : expr) : expr :=
  if expr_eqb e old then new
  else match e with
       | Add a b => Add (replace old new a) (replace old new b)
       | Mul a b => Mul (replace old new a) (replace old new b)
       | _ => e
       end.

Definition subs_sequence (d : dict expr) : list (expr * expr) :=
  sort_pairs
    (unique_pairs
       (filter (fun p => negb (expr_eqb (fst p) (snd p))) (sympify_pairs d))).

Definition model_subs (e : expr) (d : dict expr) : expr :=
  fold_left (fun acc p => replace (fst p) (snd p) acc) (subs_sequence d) e.

Fixpoint model_free_symbols (e : expr) : list expr :=
  match e with
  | Sym s => [Sym s]
  | Num _ => []
  | Add a b | Mul a b =>
      nodup expr_eq_dec (model_free_symbols a ++ model_free_symbols b)
  end.

(* the complex value of a closed expression *)
Fixpoint eval (e : expr) : Q * Q :=
  match e with
  | Sym _ => (0%Q, 0%Q)
  | Num n => (number_re n, number_im n)
  | Add a b =>
      let (ra, ia) := eval a in
      let (rb, ib) := eval b in
      (Qplus ra rb, Qplus ia ib)
  | Mul a b =>
      let (ra, ia) := eval a in
      let (rb, ib) := eval b in
      (Qminus (Qmult ra rb) (Qmult ia ib), Qplus (Qmult ra ib) (Qmult ia rb))
  end.

Definition model_im (e : expr) : expr :=
  Num (PyFloat (Qred (snd (eval e)))).

Definition model_truthy (e : expr) : bool :=
  match e with
  | Num n => negb (number_eqb n (PyInt 0))
  | _ => true
  end.

Definition model_complex (e : expr) : Q * Q :=
  (Qred (fst (eval e)), Qred (snd (eval e))).

Definition model_float (e : expr) : Q := Qred (fst (eval e)).

Definition model_kind_of (e : expr) : basic_kind :=
  match e with
  | Sym s => IsSymbol s
  | Num _ => IsNumber
  | _ => IsExpr
  end.

Definition model_eq_number (e : expr) (n : number) : bool :=
  match e with
  | Num m => number_eqb m n
  | _ => false
  end.

#[global] Instance sympy_model : Sympy expr :=
  {| basic_eq_dec := expr_eq_dec;
     Symbol := Sym;
     kind_of := model_kind_of;
     subs := model_subs;
     free_symbols := model_free_symbols;
     im := model_im;
     truthy := model_truthy;
     complex := model_complex;
     float := model_float;
     eq_number := model_eq_number |}.

(** A resolver over the table [d], its hash not computed yet. *)
Definition resolver (d : dict expr) : ParamResolver := fresh_resolver d.

(** The table [{"x": x + 1}]: every pass over an expression in [x] makes
    it larger. *)
Definition growing_table : dict expr :=
  [(KStr "x"%string, VBasic (Add (Sym "x") (Num (PyInt 1))))].

(** A hash for the entries of this model; an object that is neither a
    number, a string nor an expression is taken to be unhashable. *)
Definition string_hash (s : string) : Z :=
  fold_left (fun h c => (h * 31 + Z.of_nat (nat_of_ascii c))%Z) (list_ascii_of_string s) 7%Z.

Definition key_hash (k : key expr) : Z :=
  match k with
  | KStr s => string_hash s
  | KBasic e => (Z.of_nat (nodes e) + 1000)%Z
  end.

Definition model_hash_item (kv : key expr * pyvalue expr) : option Z :=
  match snd kv with
  | VNum n => Some (key_hash (fst kv) * 1000003 + Qnum (number_re n))%Z
  | VStr s => Some (key_hash (fst kv) * 1000003 + string_hash s)%Z
  | VBasic e => Some (key_hash (fst kv) * 1000003 + Z.of_nat (nodes e))%Z
  | VObj _ => None
  end.

(** A hash of the entries that agrees on equal entries, as Python's does:
    numbers hash by their value, a sympy number like the number it equals. *)
Definition number_hash (n : number) : Z :=
  let r := Qred (number_re n) in
  let i := Qred (number_im n) in
  (Qnum r + 31 * Z.pos (Qden r) + 101 * Qnum i + 211 * Z.pos (Qden i))%Z.

Definition value_hash (v : pyvalue expr) : Z :=
  match v with
  | VNum n => number_hash n
  | VStr s => string_hash s
  | VBasic (Num n) => number_hash n
  | VBasic e => (Z.of_nat (nodes e) + 1000)%Z
  | VObj id => Z.of_nat id
  end.

Definition value_hash_item (kv : key expr * pyvalue expr) : option Z :=
  Some (key_hash (fst kv) * 1000003 + value_hash (snd kv))%Z.

End SympyModel.

(** ** examples/bell_inequality.py

    The parts of the example that compute on measured bits: [bitstring],
    and the scoring in [main] (lines 87-92).  The four measurement columns
    of a run have one entry per repetition. *)
Module BellInequality.

(* ''.join('1' if e else '_' for e in bits) *)
Definition bitstring (bits : list bool) : string :=
  String.concat "" (map (fun e : bool => if e then "1"%string else "_"%string) bits).

(* outcomes = a ^ b == x & y, element by element *)
Definition outcomes (a b x y : list bool) : list bool :=
  map (fun p => Bool.eqb (xorb (fst (fst p)) (snd (fst p)))
                         (andb (fst (snd p)) (snd (snd p))))
      (combine (combine a b) (combine x y)).

(* len([e for e in outcomes if e]) *)
Definition wins (outcomes : list bool) : nat :=
  List.length (filter (fun e : bool => e) outcomes).

(* wins * 100 / repetitions; dividing by zero raises *)
Definition win_percent (outcomes : list bool) (repetitions : nat) : option Q :=
  match repetitions with
  | O => None
  | S _ => Some (Qmake (Z.of_nat (wins outcomes) * 100) (Pos.of_nat repetitions))
  end.

End BellInequality.

(** * Properties *)

Section DictFacts.

Context {basic : Type} {engine : Sympy basic}.

Lemma basic_eqb_refl (e : basic) : basic_eqb e e = true.
Proof. unfold basic_eqb. destruct (basic_eq_dec e e); congruence. Qed.

Lemma basic_eqb_true (a b : basic) : basic_eqb a b = true <-> a = b.
Proof.
  unfold basic_eqb. destruct (basic_eq_dec a b); split; congruence.
Qed.

Lemma basic_eqb_false (a b : basic) : basic_eqb a b = false <-> a <> b.
Proof.
  unfold basic_eqb. destruct (basic_eq_dec a b); split; congruence.
Qed.

Lemma key_eqb_true (a b : key basic) : key_eqb a b = true <-> a = b.
Proof.
  destruct a as [s|e], b as [t|f]; simpl; split; try congruence.
  - intros H. apply String.eqb_eq in H. congruence.
  - intros H. apply String.eqb_eq. congruence.
  - intros H. apply basic_eqb_true in H. congruence.
  - intros H. apply basic_eqb_true. congruence.
Qed.

Lemma key_eqb_refl (k : key basic) : key_eqb k k = true.
Proof. now apply key_eqb_true. Qed.

Lemma number_eqb_refl (n : number) : number_eqb n n = true.
Proof. unfold number_eqb. now rewrite !Qeq_bool_refl. Qed.

Lemma py_eq_refl (v : pyvalue basic) : py_eq v v = true.
Proof.
  destruct v; simpl.
  - apply number_eqb_refl.
  - apply String.eqb_refl.
  - apply basic_eqb_refl.
  - apply Nat.eqb_refl.
Qed.

Lemma dict_get_In (d : dict basic) (k : key basic) (v : pyvalue basic) :
  dict_get d k = Some v -> In (k, v) d.
Proof.
  induction d as [|[k' v'] d IH]; simpl; [discriminate|].
  destruct (key_eqb k k') eqn:E.
  - apply key_eqb_true in E. intros [= ->]. left. now subst.
  - intros H. right. now apply IH.
Qed.

Lemma In_dict_contains (d : dict basic) (k : key basic) (v : pyvalue basic) :
  In (k, v) d -> dict_contains d k = true.
Proof.
  unfold dict_contains.
  induction d as [|[k' v'] d IH]; simpl; [tauto|].
  intros [[= -> ->]|H].
  - now rewrite key_eqb_refl.
  - destruct (key_eqb k k'); [reflexivity|]. now apply IH.
Qed.

Lemma dict_contains_keys (d : dict basic) (k : key basic) :
  dict_contains d k = true <-> In k (dict_keys d).
Proof.
  unfold dict_contains, dict_keys. split.
  - destruct (dict_get d k) eqn:E; [|discriminate]. intros _.
    apply dict_get_In in E. now apply (in_map fst) in E.
  - intros H. apply in_map_iff in H. destruct H as [[k' v] [Hk Hin]].
    simpl in Hk. subst k'. apply In_dict_contains in Hin.
    unfold dict_contains in Hin. exact Hin.
Qed.

Lemma dict_wf_NoDup (d : dict basic) :
  dict_wf d = true <-> NoDup (dict_keys d).
Proof.
  induction d as [|[k v] d IH]; simpl.
  - split; [constructor | reflexivity].
  - rewrite andb_true_iff, negb_true_iff, IH. split.
    + intros [Hk Hd]. constructor; [|exact Hd].
      intros Hin. apply dict_contains_keys in Hin. congruence.
    + intros H. inversion H as [|? ? Hk Hd]; subst. split; [|exact Hd].
      destruct (dict_contains d k) eqn:E; [|reflexivity].
      apply dict_contains_keys in E. contradiction.
Qed.

Lemma dict_wf_get (d : dict basic) (k : key basic) (v : pyvalue basic) :
  dict_wf d = true -> In (k, v) d -> dict_get d k = Some v.
Proof.
  induction d as [|[k' v'] d IH]; simpl; [tauto|].
  rewrite andb_true_iff, negb_true_iff. intros [Hk Hd] [[= -> ->]|Hin].
  - now rewrite key_eqb_refl.
  - destruct (key_eqb k k') eqn:E.
    + apply key_eqb_true in E. subst k'.
      apply In_dict_contains in Hin. congruence.
    + now apply IH.
Qed.

Lemma dict_wf_Permutation (a b : dict basic) :
  Permutation a b -> dict_wf a = true -> dict_wf b = true.
Proof.
  intros HP Ha. apply dict_wf_NoDup. apply dict_wf_NoDup in Ha.
  unfold dict_keys in *. eapply Permutation_NoDup; [|exact Ha].
  now apply Permutation_map.
Qed.

(** A table equals every table that holds the same entries. *)
Lemma dict_eq_Permutation (a b : dict basic) :
  dict_wf a = true -> Permutation a b -> dict_eq a b = true.
Proof.
  intros Ha HP. unfold dict_eq. apply andb_true_iff. split.
  - apply Nat.eqb_eq. now apply Permutation_length.
  - apply forallb_forall. intros [k v] Hin. simpl.
    rewrite (dict_wf_get b k v).
    + apply py_eq_refl.
    + now apply (dict_wf_Permutation a b).
    + now apply (Permutation_in _ HP).
Qed.

Lemma dict_eq_differ (a b : dict basic) (k : key basic) (v w : pyvalue basic) :
  dict_get a k = Some v -> dict_get b k = Some w -> py_eq v w = false ->
  dict_eq a b = false.
Proof.
  intros Ha Hb Hne. unfold dict_eq. apply andb_false_iff. right.
  apply not_true_is_false. intros Hall.
  rewrite forallb_forall in Hall.
  specialize (Hall (k, v) (dict_get_In _ _ _ Ha)). simpl in Hall.
  rewrite Hb in Hall. congruence.
Qed.

Lemma dict_set_fresh (d : dict basic) (k : key basic) (v : pyvalue basic) :
  dict_contains d k = false -> dict_set d k v = d ++ [(k, v)].
Proof.
  unfold dict_contains.
  induction d as [|[k' v'] d IH]; simpl; [reflexivity|].
  destruct (key_eqb k k'); [discriminate|].
  intros H. now rewrite IH.
Qed.

Lemma dict_wf_app_fresh (a l : dict basic) (k : key basic) (v : pyvalue basic) :
  dict_wf (a ++ (k, v) :: l) = true -> dict_contains a k = false.
Proof.
  intros H. apply dict_wf_NoDup in H. unfold dict_keys in H.
  rewrite map_app in H. simpl in H. apply NoDup_remove_2 in H.
  destruct (dict_contains a k) eqn:E; [|reflexivity].
  apply dict_contains_keys in E. exfalso. apply H.
  apply in_or_app. left. exact E.
Qed.

Lemma dict_of_items_acc (l acc : dict basic) :
  dict_wf (acc ++ l) = true ->
  fold_left (fun d kv => dict_set d (fst kv) (snd kv)) l acc = acc ++ l.
Proof.
  revert acc. induction l as [|[k v] l IH]; intros acc H; simpl.
  - now rewrite app_nil_r.
  - rewrite (dict_set_fresh acc k v (dict_wf_app_fresh _ _ _ _ H)).
    rewrite IH; rewrite <- app_assoc; simpl; [reflexivity | exact H].
Qed.

(** [dict(list(d.items()))] rebuilds [d], entry by entry and in order. *)
Lemma dict_of_items_items (d : dict basic) :
  dict_wf d = true -> dict_of_items (dict_items d) = d.
Proof.
  intros H. unfold dict_of_items, dict_items.
  now rewrite (dict_of_items_acc d []).
Qed.

End DictFacts.

Section ValueOfFacts.

Context {basic : Type} {engine : Sympy basic}.

Lemma value_of_number (fuel : nat) (self : ParamResolver) (n : number) :
  value_of fuel self (VNum n) = Some (VNum n).
Proof. reflexivity. Qed.

(** An expression that is not returned by the first two steps is handed to
    the loop. *)
Lemma value_of_enters_loop (fuel : nat) (self : ParamResolver) (e : basic) :
  is_Number (VBasic e) = false ->
  exact_match (param_dict self) (VBasic e) = None ->
  value_of fuel self (VBasic e) = subs_loop fuel (param_dict self) e.
Proof.
  intros Hn Hm. unfold value_of. now rewrite Hn, Hm.
Qed.

Lemma value_of_exact (fuel : nat) (self : ParamResolver) (e : basic)
      (resolved : pyvalue basic) :
  is_Number (VBasic e) = false ->
  exact_match (param_dict self) (VBasic e) = Some resolved ->
  value_of fuel self (VBasic e) = Some resolved.
Proof.
  intros Hn Hm. unfold value_of. now rewrite Hn, Hm.
Qed.

Lemma symbol_not_Number (e : basic) (name : string) :
  kind_of e = IsSymbol name -> is_Number (VBasic e) = false.
Proof. intros H. simpl. now rewrite H. Qed.

(** The key chosen for a symbol: its name when the name is bound, else the
    symbol itself when that is bound. *)
Lemma exact_match_key_symbol (d : dict basic) (e : basic) (name : string) :
  kind_of e = IsSymbol name ->
  exact_match_key d (VBasic e) =
    if dict_contains d (KStr name) then Some (KStr name)
    else if dict_contains d (KBasic e) then Some (KBasic e)
    else None.
Proof. intros H. simpl. now rewrite H. Qed.

Lemma exact_match_by_name (d : dict basic) (e : basic) (name : string)
      (resolved : pyvalue basic) :
  kind_of e = IsSymbol name ->
  dict_get d (KStr name) = Some resolved ->
  is_Basic_or_str resolved = false ->
  exact_match d (VBasic e) = Some resolved.
Proof.
  intros Hk Hg Hr. unfold exact_match.
  rewrite (exact_match_key_symbol d e name Hk).
  unfold dict_contains. now rewrite Hg, Hg, Hr.
Qed.

Lemma exact_match_by_symbol (d : dict basic) (e : basic) (name : string)
      (resolved : pyvalue basic) :
  kind_of e = IsSymbol name ->
  dict_get d (KStr name) = None ->
  dict_get d (KBasic e) = Some resolved ->
  is_Basic_or_str resolved = false ->
  exact_match d (VBasic e) = Some resolved.
Proof.
  intros Hk Hn Hg Hr. unfold exact_match.
  rewrite (exact_match_key_symbol d e name Hk).
  unfold dict_contains. now rewrite Hn, Hg, Hg, Hr.
Qed.

Lemma exact_match_unbound (d : dict basic) (e : basic) (name : string) :
  kind_of e = IsSymbol name ->
  dict_contains d (KBasic e) = false ->
  dict_contains d (KStr name) = false ->
  exact_match d (VBasic e) = None.
Proof.
  intros Hk Hs Hn. unfold exact_match.
  rewrite (exact_match_key_symbol d e name Hk). now rewrite Hn, Hs.
Qed.

(** While the passes make progress the loop goes on. *)
Lemma subs_loop_progress (n fuel : nat) (d : dict basic) (e : basic) :
  progress_steps n d e = true ->
  subs_loop (n + fuel) d e = subs_loop fuel d (iter_subs n d e).
Proof.
  revert e. induction n as [|n IH]; intros e H; simpl in *; [reflexivity|].
  apply andb_true_iff in H. destruct H as [Hp Hs].
  unfold makes_progress in Hp.
  destruct (free_symbols (subs e d)); [discriminate|].
  rewrite Hp. now apply IH.
Qed.

Lemma subs_loop_running (n : nat) (d : dict basic) (e : basic) :
  progress_steps n d e = true -> forall fuel, fuel <= n -> subs_loop fuel d e = None.
Proof.
  revert e. induction n as [|n IH]; intros e H fuel Hle.
  - replace fuel with 0 by lia. reflexivity.
  - destruct fuel as [|fuel]; [reflexivity|]. simpl in *.
    apply andb_true_iff in H. destruct H as [Hp Hs].
    unfold makes_progress in Hp.
    destruct (free_symbols (subs e d)); [discriminate|].
    rewrite Hp. apply IH; [exact Hs | lia].
Qed.

Lemma subs_loop_fixed_point (fuel : nat) (d : dict basic) (e : basic) :
  is_fixed_point d e = true ->
  subs_loop (S fuel) d e = Some (VBasic e) /\ subs e d = e.
Proof.
  unfold is_fixed_point. simpl.
  destruct (free_symbols (subs e d)); [discriminate|].
  intros H. rewrite H. simpl. apply basic_eqb_true in H.
  split; [now rewrite H | exact H].
Qed.

Lemma subs_loop_closed (fuel : nat) (d : dict basic) (e : basic) :
  free_symbols (subs e d) = [] ->
  subs_loop (S fuel) d e = Some (VNum (classify (subs e d))).
Proof.
  intros H. simpl. rewrite H. unfold classify.
  now destruct (truthy (im (subs e d))).
Qed.

(** A number that comes out of the loop is a float or a complex. *)
Lemma subs_loop_number_type (fuel : nat) (d : dict basic) (e : basic) (n : number) :
  subs_loop fuel d e = Some (VNum n) -> type_of n <> TInt.
Proof.
  revert e. induction fuel as [|fuel IH]; intros e; simpl; [discriminate|].
  destruct (free_symbols (subs e d)).
  - destruct (truthy (im (subs e d))); intros [= <-]; discriminate.
  - destruct (negb (basic_eqb (subs e d) e)); [apply IH | discriminate].
Qed.

End ValueOfFacts.

(** ** The concrete engine satisfies the laws *)

Module SympyModelFacts.
Import SympyModel.

Lemma In_insert_pair (p q : expr * expr) (l : list (expr * expr)) :
  In p (insert_pair q l) -> p = q \/ In p l.
Proof.
  induction l as [|r l IH]; simpl.
  - intros [H|[]]. now left.
  - destruct (sort_before (fst q) (fst r)); simpl.
    + intros [H|[H|H]]; auto.
    + intros [H|H]; auto. destruct (IH H); auto.
Qed.

Lemma In_sort_pairs (p : expr * expr) (l : list (expr * expr)) :
  In p (sort_pairs l) -> In p l.
Proof.
  unfold sort_pairs. induction l as [|q l IH]; simpl; [tauto|].
  intros H. apply In_insert_pair in H. destruct H as [H|H]; auto.
Qed.

Lemma In_assoc_set (l : list (expr * expr)) (old new o n : expr) :
  In (o, n) (assoc_set l old new) -> In o (map fst l) \/ o = old.
Proof.
  induction l as [|[o' n'] l IH]; simpl.
  - intros [[= <- <-]|[]]. now right.
  - destruct (expr_eqb old o'); simpl.
    + intros [[= <- <-]|H]; [now left; left|].
      left. right. now apply (in_map fst) in H.
    + intros [[= <- <-]|H]; [now left; left|].
      destruct (IH H) as [H'|H']; auto.
Qed.

Lemma In_unique_pairs_acc (l acc : list (expr * expr)) (o n : expr) :
  In (o, n) (fold_left (fun acc p => assoc_set acc (fst p) (snd p)) l acc) ->
  In o (map fst acc) \/ In o (map fst l).
Proof.
  revert acc. induction l as [|[o' n'] l IH]; intros acc; simpl.
  - intros H. left. now apply (in_map fst) in H.
  - intros H. apply IH in H. destruct H as [H|H]; [|now right; right].
    apply in_map_iff in H. destruct H as [[o2 n2] [Ho Hin]]. simpl in Ho. subst o2.
    apply In_assoc_set in Hin. destruct Hin as [Hin | ->]; [now left | now right; left].
Qed.

Lemma In_sympify_pairs (d : dict expr) (o : expr) :
  In o (map fst (sympify_pairs d)) ->
  exists k v, In (k, v) d /\ sympify_key k = o.
Proof.
  induction d as [|[k v] d IH]; simpl; [tauto|].
  destruct (sympify v); simpl.
  - intros [<-|H].
    + exists k, v. split; [now left | reflexivity].
    + destruct (IH H) as (k' & v' & Hin & Hk). exists k', v'. split; [now right | exact Hk].
  - intros H. destruct (IH H) as (k' & v' & Hin & Hk). exists k', v'. split; [now right | exact Hk].
Qed.

Lemma In_subs_sequence (d : dict expr) (o n : expr) :
  In (o, n) (subs_sequence d) ->
  exists k v, In (k, v) d /\ sympify_key k = o.
Proof.
  unfold subs_sequence, unique_pairs. intros H.
  apply In_sort_pairs in H. apply In_unique_pairs_acc in H.
  destruct H as [[]|H].
  apply in_map_iff in H. destruct H as [[o' n'] [Ho Hin]]. simpl in Ho. subst o'.
  apply filter_In in Hin. destruct Hin as [Hin _].
  apply In_sympify_pairs. now apply (in_map fst) in Hin.
Qed.

Lemma replace_symbol_other (old new : expr) (s : string) :
  old <> Sym s -> replace old new (Sym s) = Sym s.
Proof.
  intros H. simpl. unfold expr_eqb.
  destruct (expr_eq_dec (Sym s) old); congruence.
Qed.

Lemma fold_replace_symbol (l : list (expr * expr)) (s : string) :
  (forall p, In p l -> fst p <> Sym s) ->
  fold_left (fun acc p => replace (fst p) (snd p) acc) l (Sym s) = Sym s.
Proof.
  induction l as [|p l IH]; intros H; cbn [fold_left]; [reflexivity|].
  rewrite replace_symbol_other by (apply H; now left).
  apply IH. intros q Hq. apply H. now right.
Qed.

Lemma sympy_model_laws : SympyLaws sympy_model.
Proof.
  constructor.
  - reflexivity.
  - intros e name H. destruct e; simpl in *; discriminate.
  - intros e name d Hk Hs Hn.
    destruct e as [s| | |]; simpl in Hk; try discriminate.
    injection Hk as Hk. subst name. simpl. unfold model_subs.
    apply fold_replace_symbol. intros [o n] Hin Ho. simpl in Ho. subst o.
    apply In_subs_sequence in Hin. destruct Hin as (k & v & Hin & Hkey).
    apply In_dict_contains in Hin.
    destruct k as [t|e]; simpl in Hkey; subst; congruence.
Qed.

(** *** A table on which the loop does not return *)

Lemma subs_growing_table (e : expr) :
  subs e growing_table =
    replace (Sym "x") (Add (Sym "x") (Num (PyInt 1))) e.
Proof. reflexivity. Qed.

Lemma nodes_replace_le (e : expr) :
  nodes e <= nodes (replace (Sym "x") (Add (Sym "x") (Num (PyInt 1))) e).
Proof.
  induction e as [s|n|a IHa b IHb|a IHa b IHb]; simpl.
  - destruct (expr_eqb (Sym s) (Sym "x")); simpl; lia.
  - lia.
  - lia.
  - lia.
Qed.

Lemma nodes_replace_lt (e : expr) :
  In (Sym "x") (model_free_symbols e) ->
  nodes e < nodes (replace (Sym "x") (Add (Sym "x") (Num (PyInt 1))) e).
Proof.
  induction e as [s|n|a IHa b IHb|a IHa b IHb]; simpl.
  - intros [H|[]]. rewrite H. simpl. lia.
  - tauto.
  - intros H. apply nodup_In, in_app_or in H.
    pose proof (nodes_replace_le a). pose proof (nodes_replace_le b).
    destruct H as [H|H]; [apply IHa in H | apply IHb in H]; lia.
  - intros H. apply nodup_In, in_app_or in H.
    pose proof (nodes_replace_le a). pose proof (nodes_replace_le b).
    destruct H as [H|H]; [apply IHa in H | apply IHb in H]; lia.
Qed.

Lemma free_symbols_replace (e : expr) :
  In (Sym "x") (model_free_symbols e) ->
  In (Sym "x")
     (model_free_symbols (replace (Sym "x") (Add (Sym "x") (Num (PyInt 1))) e)).
Proof.
  induction e as [s|n|a IHa b IHb|a IHa b IHb]; simpl.
  - intros [H|[]]. rewrite H. simpl. now left.
  - tauto.
  - intros H. apply nodup_In, in_app_or in H. apply nodup_In, in_or_app.
    destruct H as [H|H]; [left; now apply IHa | right; now apply IHb].
  - intros H. apply nodup_In, in_app_or in H. apply nodup_In, in_or_app.
    destruct H as [H|H]; [left; now apply IHa | right; now apply IHb].
Qed.

Lemma growing_table_progress (n : nat) (e : expr) :
  In (Sym "x") (model_free_symbols e) ->
  progress_steps n growing_table e = true.
Proof.
  revert e. induction n as [|n IH]; intros e H; [reflexivity|].
  cbn [progress_steps]. apply andb_true_iff. split.
  - unfold makes_progress. rewrite subs_growing_table.
    pose proof (free_symbols_replace e H) as Hf.
    pose proof (nodes_replace_lt e H) as Hlt.
    change (@free_symbols expr sympy_model) with model_free_symbols.
    destruct (model_free_symbols (replace _ _ e)); [destruct Hf|].
    apply negb_true_iff, basic_eqb_false. intros Heq.
    rewrite Heq in Hlt. lia.
  - apply IH. rewrite subs_growing_table. now apply free_symbols_replace.
Qed.

(** With [{"x": x + 1}] the resolution of [x] is still running after any
    number of passes: nothing but the expression itself ends the loop. *)
Lemma value_of_growing_table_runs (fuel : nat) :
  value_of fuel (resolver growing_table) (VStr "x"%string) = None /\
  value_of fuel (resolver growing_table) (VBasic (Sym "x")) = None.
Proof.
  assert (H : subs_loop fuel growing_table (Sym "x") = None).
  { apply (subs_loop_running fuel); [|lia].
    apply growing_table_progress. simpl. now left. }
  split; exact H.
Qed.

End SympyModelFacts.

Section ConstructionFacts.

Context {basic : Type}.

Lemma heap_store_fresh (h : @heap basic) (r : ParamResolver) :
  heap_store (h ++ [None]) (List.length h) r = h ++ [Some r].
Proof.
  unfold heap_store.
  rewrite (skipn_all2 (n := S (List.length h))) by (rewrite length_app; simpl; lia).
  rewrite firstn_app, Nat.sub_diag, firstn_all. simpl. now rewrite app_nil_r.
Qed.

Lemma nth_error_fresh (h : @heap basic) :
  nth_error (h ++ [None]) (List.length h) = Some None.
Proof. rewrite nth_error_app2, Nat.sub_diag; [reflexivity | lia]. Qed.

Lemma new_ParamResolver_dict (h : @heap basic) (d : dict basic) :
  new_ParamResolver h (ArgDict d) =
    Some (List.length h, h ++ [Some (fresh_resolver d)]).
Proof.
  unfold new_ParamResolver, __new__, __init__.
  now rewrite nth_error_fresh, heap_store_fresh.
Qed.

Lemma new_ParamResolver_none (h : @heap basic) :
  new_ParamResolver h ArgNone =
    Some (List.length h, h ++ [Some (fresh_resolver [])]).
Proof.
  unfold new_ParamResolver, __new__, __init__.
  now rewrite nth_error_fresh, heap_store_fresh.
Qed.

Lemma new_ParamResolver_resolver (h : @heap basic) (a : nat) (r : ParamResolver) :
  nth_error h a = Some (Some r) ->
  new_ParamResolver h (ArgResolver a) = Some (a, h).
Proof.
  intros H. unfold new_ParamResolver, __new__, __init__. now rewrite H.
Qed.

End ConstructionFacts.

Section HashFacts.

Context {basic : Type} {engine : Sympy basic}.

Variable hash_item : key basic * pyvalue basic -> option Z.

Lemma filter_all (A : Type) (f : A -> bool) (l : list A) :
  (forall x, In x l -> f x = true) -> filter f l = l.
Proof.
  induction l as [|x l IH]; intros H; simpl; [reflexivity|].
  rewrite (H x) by now left.
  rewrite IH; [reflexivity|]. intros y Hy. apply H. now right.
Qed.

(** The entries of a dict are pairwise different: [frozenset] keeps all. *)
Lemma frozenset_dict (d : dict basic) :
  dict_wf d = true -> frozenset d = d.
Proof.
  induction d as [|[k v] d IH]; simpl; [reflexivity|].
  rewrite andb_true_iff, negb_true_iff. intros [Hk Hd].
  rewrite IH by exact Hd. rewrite filter_all; [reflexivity|].
  intros [k' v'] Hin. unfold item_eqb. simpl.
  destruct (key_eqb k' k) eqn:E; [|reflexivity].
  apply key_eqb_true in E. subst k'.
  apply In_dict_contains in Hin. congruence.
Qed.

Lemma hash_all_spec (l : list (key basic * pyvalue basic)) :
  hash_all hash_item l =
    if forallb (hashable hash_item) l then Some (map (hash_or_zero hash_item) l) else None.
Proof.
  induction l as [|x l IH]; simpl; [reflexivity|].
  rewrite IH. unfold hashable, hash_or_zero.
  destruct (hash_item x); simpl; [|reflexivity].
  match goal with |- context [forallb ?f l] => destruct (forallb f l) end;
    reflexivity.
Qed.

Lemma forallb_Permutation (A : Type) (f : A -> bool) (l l' : list A) :
  Permutation l l' -> forallb f l = forallb f l'.
Proof.
  induction 1; simpl.
  - reflexivity.
  - now rewrite IHPermutation.
  - now rewrite !andb_assoc, (andb_comm (f y)).
  - congruence.
Qed.

Lemma xor_entries_Permutation (hs hs' : list Z) :
  Permutation hs hs' ->
  fold_right (fun e acc => Z.lxor acc (shuffle_bits (uhash e))) 0%Z hs =
  fold_right (fun e acc => Z.lxor acc (shuffle_bits (uhash e))) 0%Z hs'.
Proof.
  induction 1; simpl.
  - reflexivity.
  - now rewrite IHPermutation.
  - rewrite !Z.lxor_assoc. f_equal. apply Z.lxor_comm.
  - congruence.
Qed.

Lemma hash_entries_Permutation (hs hs' : list Z) :
  Permutation hs hs' -> hash_entries hs = hash_entries hs'.
Proof.
  intros H. unfold hash_entries.
  now rewrite (xor_entries_Permutation hs hs' H), (Permutation_length H).
Qed.

(** The hash of the entries does not depend on the insertion order. *)
Lemma hash_frozenset_Permutation (a b : dict basic) :
  dict_wf a = true -> Permutation a b ->
  hash_frozenset hash_item a = hash_frozenset hash_item b.
Proof.
  intros Ha HP. unfold hash_frozenset.
  rewrite (frozenset_dict a Ha).
  rewrite (frozenset_dict b (dict_wf_Permutation a b HP Ha)).
  rewrite !hash_all_spec, (forallb_Permutation _ (hashable hash_item) a b HP).
  destruct (forallb (hashable hash_item) b); simpl; [|reflexivity].
  f_equal. apply hash_entries_Permutation. now apply Permutation_map.
Qed.

Lemma hash_cached (self : ParamResolver) :
  fst (__hash__ hash_item (snd (__hash__ hash_item self))) =
  fst (__hash__ hash_item self).
Proof.
  unfold __hash__. destruct (_param_hash self) eqn:E; simpl.
  - now rewrite E.
  - destruct (hash_frozenset hash_item (dict_items (param_dict self))) eqn:F; simpl.
    + reflexivity.
    + now rewrite E, F.
Qed.

Lemma hash_coherent (self : ParamResolver) :
  cache_coherent hash_item self ->
  fst (__hash__ hash_item self) =
    hash_frozenset hash_item (dict_items (param_dict self)).
Proof.
  unfold cache_coherent, __hash__. intros [H|H]; rewrite H.
  - now destruct (hash_frozenset hash_item (dict_items (param_dict self))).
  - now destruct (hash_frozenset hash_item (dict_items (param_dict self))).
Qed.

(** With every entry hashable the hash of the table is the combination of
    the entries' hashes; one unhashable entry makes the hashing fail. *)
Lemma hash_frozenset_hashable (d : dict basic) :
  dict_wf d = true ->
  forallb (hashable hash_item) d = true ->
  hash_frozenset hash_item d =
    Some (hash_entries (map (hash_or_zero hash_item) d)).
Proof.
  intros Hwf Hh. unfold hash_frozenset.
  now rewrite (frozenset_dict d Hwf), hash_all_spec, Hh.
Qed.

Lemma hash_frozenset_unhashable (d : dict basic) :
  dict_wf d = true ->
  forallb (hashable hash_item) d = false ->
  hash_frozenset hash_item d = None.
Proof.
  intros Hwf Hh. unfold hash_frozenset.
  now rewrite (frozenset_dict d Hwf), hash_all_spec, Hh.
Qed.

End HashFacts.

Section DictSetFacts.

Context {basic : Type} {engine : Sympy basic}.

Lemma dict_get_set_same (d : dict basic) (k : key basic) (w : pyvalue basic) :
  dict_get (dict_set d k w) k = Some w.
Proof.
  induction d as [|[k' v'] d IH]; simpl.
  - now rewrite key_eqb_refl.
  - destruct (key_eqb k k') eqn:E; simpl; now rewrite E.
Qed.

End DictSetFacts.

(** * The claims of the specification *)

(* discharges the premises of [H] that hold by evaluation *)
Ltac discharge_by_evaluation H :=
  repeat match type of H with
         | ?A -> _ =>
             let a := fresh in
             assert (a : A) by reflexivity; specialize (H a); clear a
         end.

(** C1 (as stated).  A table binds the symbol [x] to the number 5 and the
    name ["x"] to the string ["y"].  The symbol is bound to a concrete
    number, yet [value_of] does not return it: the lookup selects the name,
    whose value is a string, so nothing is returned before a first pass of
    the loop, and what the loop returns is the symbol [y]. *)
Lemma value_of_symbol_bound_concrete_counterexample :
  let d := [(KBasic (SympyModel.Sym "x"), VNum (PyInt 5));
            (KStr "x"%string, VStr "y"%string)] in
  dict_get d (KBasic (SympyModel.Sym "x")) = Some (VNum (PyInt 5)) /\
  is_Basic_or_str (@VNum SympyModel.expr (PyInt 5)) = false /\
  value_of 0 (SympyModel.resolver d) (VBasic (SympyModel.Sym "x")) = None /\
  value_of 2 (SympyModel.resolver d) (VBasic (SympyModel.Sym "x")) =
    Some (VBasic (SympyModel.Sym "y")) /\
  forall fuel,
    value_of fuel (SympyModel.resolver d) (VBasic (SympyModel.Sym "x")) <>
      Some (VNum (PyInt 5)).
Proof.
  intros d. repeat split.
  intros [|[|fuel]]; discriminate.
Qed.

(** C1 (amended).  A symbol whose lookup, under its name when the name is
    bound and under the variable object otherwise, finds a value that is
    neither a string nor a sympy expression resolves to that value at once:
    the result is there with no fuel at all, that is before the first call
    of [subs], and it is the same whatever substitution function the engine
    has. *)
Theorem value_of_exact_match_shortcut
  {basic : Type} {engine : Sympy basic}
  (self : ParamResolver) (e : basic) (name : string) (resolved : pyvalue basic) :
  kind_of e = IsSymbol name ->
  (dict_get (param_dict self) (KStr name) = Some resolved \/
   (dict_get (param_dict self) (KStr name) = None /\
    dict_get (param_dict self) (KBasic e) = Some resolved)) ->
  is_Basic_or_str resolved = false ->
  value_of 0 self (VBasic e) = Some resolved /\
  forall fuel subs',
    value_of (engine := with_subs engine subs') fuel self (VBasic e) = Some resolved.
Proof.
  intros Hk Hb Hr.
  assert (G : forall (E : Sympy basic) fuel,
             @kind_of basic E e = IsSymbol name ->
             (@dict_get basic E (param_dict self) (KStr name) = Some resolved \/
              (@dict_get basic E (param_dict self) (KStr name) = None /\
               @dict_get basic E (param_dict self) (KBasic e) = Some resolved)) ->
             @value_of basic E fuel self (VBasic e) = Some resolved).
  { intros E fuel Hk' Hb'. apply value_of_exact.
    - now apply (symbol_not_Number e name).
    - destruct Hb' as [Hn | [Hn Hs]].
      + now apply (exact_match_by_name _ e name).
      + now apply (exact_match_by_symbol _ e name). }
  split.
  - now apply G.
  - intros fuel subs'. apply G; assumption.
Qed.

Lemma value_of_exact_match_shortcut_witness :
  let d := [(KStr "x"%string, VNum (PyInt 5));
            (KStr "z"%string,
             VBasic (SympyModel.Add (SympyModel.Sym "x") (SympyModel.Sym "q")))] in
  value_of 0 (SympyModel.resolver d) (VBasic (SympyModel.Sym "x")) =
    Some (VNum (PyInt 5)).
Proof.
  intros d.
  apply (value_of_exact_match_shortcut
           (SympyModel.resolver d) (SympyModel.Sym "x") "x"%string (VNum (PyInt 5)));
    [reflexivity | left; reflexivity | reflexivity].
Defined.

(** C2 (as stated).  A table binds the symbol [x] to 1 and the name ["x"]
    to 2: [value_of] returns 2, the value bound to the name, and not the
    value bound to the variable object. *)
Lemma value_of_symbol_binding_first_counterexample :
  let d := [(KBasic (SympyModel.Sym "x"), VNum (PyInt 1));
            (KStr "x"%string, VNum (PyInt 2))] in
  dict_get d (KBasic (SympyModel.Sym "x")) = Some (VNum (PyInt 1)) /\
  dict_get d (KStr "x"%string) = Some (VNum (PyInt 2)) /\
  value_of 1 (SympyModel.resolver d) (VBasic (SympyModel.Sym "x")) =
    Some (VNum (PyInt 2)) /\
  value_of 1 (SympyModel.resolver d) (VBasic (SympyModel.Sym "x")) <>
    Some (VNum (PyInt 1)).
Proof.
  intros d. repeat split; try reflexivity.
  vm_compute. discriminate.
Qed.

(** C2 (amended).  The variable object is tested first and its name string
    second, and a bound name replaces the variable object as the key of the
    lookup.  So in a table that binds the variable object, when the name is
    bound too the key is the name: [value_of] returns the value bound to the
    name when it is neither a string nor an expression, and otherwise hands
    the symbol to the substitution loop; the variable object is the key
    only when the name is not bound. *)
Theorem value_of_name_binding_wins
  {basic : Type} {engine : Sympy basic}
  (self : ParamResolver) (e : basic) (name : string) (by_symbol : pyvalue basic) :
  kind_of e = IsSymbol name ->
  dict_get (param_dict self) (KBasic e) = Some by_symbol ->
  (forall by_name,
      dict_get (param_dict self) (KStr name) = Some by_name ->
      exact_match_key (param_dict self) (VBasic e) = Some (KStr name) /\
      (is_Basic_or_str by_name = false ->
       forall fuel, value_of fuel self (VBasic e) = Some by_name) /\
      (is_Basic_or_str by_name = true ->
       forall fuel,
         value_of fuel self (VBasic e) = subs_loop fuel (param_dict self) e)) /\
  (dict_get (param_dict self) (KStr name) = None ->
   exact_match_key (param_dict self) (VBasic e) = Some (KBasic e) /\
   (is_Basic_or_str by_symbol = false ->
    forall fuel, value_of fuel self (VBasic e) = Some by_symbol) /\
   (is_Basic_or_str by_symbol = true ->
    forall fuel,
      value_of fuel self (VBasic e) = subs_loop fuel (param_dict self) e)).
Proof.
  intros Hk Hs.
  pose proof (symbol_not_Number e name Hk) as N.
  split.
  - intros by_name Hn.
    assert (K : exact_match_key (param_dict self) (VBasic e) = Some (KStr name)).
    { rewrite (exact_match_key_symbol _ e name Hk).
      unfold dict_contains. now rewrite Hn. }
    split; [exact K | split].
    + intros Hr fuel. apply value_of_exact; [exact N|].
      now apply (exact_match_by_name _ e name).
    + intros Hr fuel. apply value_of_enters_loop; [exact N|].
      unfold exact_match. now rewrite K, Hn, Hr.
  - intros Hn.
    assert (K : exact_match_key (param_dict self) (VBasic e) = Some (KBasic e)).
    { rewrite (exact_match_key_symbol _ e name Hk).
      unfold dict_contains. now rewrite Hn, Hs. }
    split; [exact K | split].
    + intros Hr fuel. apply value_of_exact; [exact N|].
      now apply (exact_match_by_symbol _ e name).
    + intros Hr fuel. apply value_of_enters_loop; [exact N|].
      unfold exact_match. now rewrite K, Hs, Hr.
Qed.

Lemma value_of_name_binding_wins_witness :
  let d := [(KBasic (SympyModel.Sym "x"), VNum (PyInt 1));
            (KStr "x"%string, VNum (PyInt 2))] in
  let d' := [(KStr "x"%string, @VStr SympyModel.expr "y"%string);
             (KBasic (SympyModel.Sym "x"), VNum (PyInt 1))] in
  value_of 0 (SympyModel.resolver d) (VBasic (SympyModel.Sym "x")) =
    Some (VNum (PyInt 2)) /\
  value_of 1 (SympyModel.resolver d') (VBasic (SympyModel.Sym "x")) =
    subs_loop 1 d' (SympyModel.Sym "x").
Proof.
  intros d d'. split.
  - destruct (value_of_name_binding_wins
                (SympyModel.resolver d) (SympyModel.Sym "x") "x"%string
                (VNum (PyInt 1))) as [H _]; [reflexivity | reflexivity |].
    apply (H (VNum (PyInt 2))); reflexivity.
  - destruct (value_of_name_binding_wins
                (SympyModel.resolver d') (SympyModel.Sym "x") "x"%string
                (VNum (PyInt 1))) as [H _]; [reflexivity | reflexivity |].
    apply (H (VStr "y"%string)); reflexivity.
Defined.

(** C3.  The loop stops at a fixed point and at nothing else that counts
    passes.  Let the first [n] passes each leave free symbols and change the
    expression, and let the next pass leave free symbols and change nothing.
    Then [value_of] is still running after any number of passes up to [n],
    and with one more pass returns the expression, unchanged by the last
    substitution.  Moreover, for any expression, as long as every pass makes
    progress the loop has not returned: no number of passes ends it. *)
Theorem value_of_stops_at_fixed_point
  {basic : Type} {engine : Sympy basic}
  (self : ParamResolver) (e : basic) (n : nat) :
  is_Number (VBasic e) = false ->
  exact_match (param_dict self) (VBasic e) = None ->
  progress_steps n (param_dict self) e = true ->
  is_fixed_point (param_dict self) (iter_subs n (param_dict self) e) = true ->
  (forall fuel, fuel <= n -> value_of fuel self (VBasic e) = None) /\
  (forall fuel,
      value_of (n + S fuel) self (VBasic e) =
        Some (VBasic (iter_subs n (param_dict self) e))) /\
  subs (iter_subs n (param_dict self) e) (param_dict self) =
    iter_subs n (param_dict self) e /\
  (forall m e', progress_steps m (param_dict self) e' = true ->
                subs_loop m (param_dict self) e' = None).
Proof.
  intros Hn Hm Hp Hf. repeat split.
  - intros fuel Hle. rewrite value_of_enters_loop by assumption.
    now apply (subs_loop_running n).
  - intros fuel. rewrite value_of_enters_loop by assumption.
    rewrite subs_loop_progress by assumption.
    now apply subs_loop_fixed_point.
  - now apply (subs_loop_fixed_point 0).
  - intros m e' H. now apply (subs_loop_running m).
Qed.

Lemma value_of_stops_at_fixed_point_witness :
  let d := [(KStr "x"%string, @VStr SympyModel.expr "y"%string)] in
  value_of 1 (SympyModel.resolver d) (VBasic (SympyModel.Sym "x")) = None /\
  value_of 2 (SympyModel.resolver d) (VBasic (SympyModel.Sym "x")) =
    Some (VBasic (SympyModel.Sym "y")).
Proof.
  intros d.
  destruct (value_of_stops_at_fixed_point
              (SympyModel.resolver d) (SympyModel.Sym "x") 1)
    as (Hrun & Hret & _); try reflexivity.
  split.
  - apply Hrun. lia.
  - apply (Hret 0).
Defined.

(** C5.  When the loop, after [n] passes that made progress, produces an
    expression without free symbols, [value_of] returns it converted: to a
    complex number when its imaginary part is non-zero, to a float
    otherwise. *)
Theorem value_of_closed_result_conversion
  {basic : Type} {engine : Sympy basic}
  (self : ParamResolver) (e : basic) (n : nat) :
  is_Number (VBasic e) = false ->
  exact_match (param_dict self) (VBasic e) = None ->
  progress_steps n (param_dict self) e = true ->
  free_symbols (subs (iter_subs n (param_dict self) e) (param_dict self)) = [] ->
  forall fuel,
    value_of (n + S fuel) self (VBasic e) =
      let v := subs (iter_subs n (param_dict self) e) (param_dict self) in
      if truthy (im v)
      then Some (VNum (PyComplex (fst (complex v)) (snd (complex v))))
      else Some (VNum (PyFloat (float v))).
Proof.
  intros Hn Hm Hp Hc fuel. rewrite value_of_enters_loop by assumption.
  rewrite subs_loop_progress by assumption.
  rewrite subs_loop_closed by assumption. unfold classify. cbv zeta.
  now destruct (truthy (im _)).
Qed.

Lemma value_of_closed_result_conversion_witness :
  let d := [(KStr "x"%string, @VStr SympyModel.expr "w"%string);
            (KStr "w"%string, VNum (PyComplex 0 1));
            (KStr "u"%string, VStr "v"%string);
            (KStr "v"%string, VNum (PyInt 7))] in
  value_of 2 (SympyModel.resolver d) (VBasic (SympyModel.Sym "x")) =
    Some (VNum (PyComplex 0 1)) /\
  value_of 1 (SympyModel.resolver d) (VBasic (SympyModel.Sym "u")) =
    Some (VNum (PyFloat 7)).
Proof.
  intros d. split.
  - pose proof (value_of_closed_result_conversion
                  (SympyModel.resolver d) (SympyModel.Sym "x") 1) as H.
    discharge_by_evaluation H. exact (H 0).
  - pose proof (value_of_closed_result_conversion
                  (SympyModel.resolver d) (SympyModel.Sym "u") 0) as H.
    discharge_by_evaluation H. exact (H 0).
Defined.

(** C6.  Resolution returns on input it cannot resolve.  A number (a Python
    number or a sympy number) is returned unchanged; a symbol of which
    neither the object nor the name is bound resolves to itself after one
    pass, and an unbound name to the symbol of that name; the resolver
    built from no argument is false, iterates over nothing and resolves
    every symbol to itself. *)
Theorem value_of_total_on_unresolved
  {basic : Type} {engine : Sympy basic} (laws : SympyLaws engine)
  (self : ParamResolver) (h : heap) :
  (forall fuel v, is_Number v = true -> value_of fuel self v = Some v) /\
  (forall fuel n, value_of fuel self (VNum n) = Some (VNum n)) /\
  (forall fuel e name,
      kind_of e = IsSymbol name ->
      dict_contains (param_dict self) (KBasic e) = false ->
      dict_contains (param_dict self) (KStr name) = false ->
      value_of (S fuel) self (VBasic e) = Some (VBasic e)) /\
  (forall fuel s,
      dict_contains (param_dict self) (KBasic (Symbol s)) = false ->
      dict_contains (param_dict self) (KStr s) = false ->
      value_of (S fuel) self (VStr s) = Some (VBasic (Symbol s))) /\
  (exists r,
      new_ParamResolver h ArgNone = Some (List.length h, h ++ [Some r]) /\
      __bool__ r = false /\
      __iter__ r = [] /\
      forall fuel e name,
        kind_of e = IsSymbol name ->
        value_of (S fuel) r (VBasic e) = Some (VBasic e)).
Proof.
  assert (U : forall (r : ParamResolver) fuel e name,
             kind_of e = IsSymbol name ->
             dict_contains (param_dict r) (KBasic e) = false ->
             dict_contains (param_dict r) (KStr name) = false ->
             value_of (S fuel) r (VBasic e) = Some (VBasic e)).
  { intros r fuel e name Hk Hs Hn.
    rewrite value_of_enters_loop.
    - apply subs_loop_fixed_point. unfold is_fixed_point.
      rewrite (subs_unbound engine laws e name _ Hk Hs Hn).
      pose proof (free_symbols_symbol engine laws e name Hk) as Hf.
      destruct (free_symbols e); [congruence|]. apply basic_eqb_refl.
    - now apply (symbol_not_Number e name).
    - now apply (exact_match_unbound _ e name). }
  repeat split.
  - intros fuel v Hv. unfold value_of. now rewrite Hv.
  - intros fuel e name. apply U.
  - intros fuel s Hs Hn.
    pose proof (U self fuel (Symbol s) s (kind_of_Symbol engine laws s) Hs Hn) as H.
    unfold value_of in *. simpl in *.
    now rewrite (kind_of_Symbol engine laws s) in *.
  - exists (fresh_resolver []). repeat split.
    + apply new_ParamResolver_none.
    + intros fuel e name Hk. now apply (U _ fuel e name).
Qed.

Lemma value_of_total_on_unresolved_witness :
  let d := [(KStr "a"%string, @VNum SympyModel.expr (PyInt 1))] in
  value_of 0 (SympyModel.resolver d) (VNum (PyFloat 2)) = Some (VNum (PyFloat 2)) /\
  value_of 1 (SympyModel.resolver d) (VBasic (SympyModel.Sym "b")) =
    Some (VBasic (SympyModel.Sym "b")) /\
  value_of 1 (SympyModel.resolver d) (VStr "b"%string) =
    Some (VBasic (SympyModel.Sym "b")).
Proof.
  intros d.
  destruct (value_of_total_on_unresolved
              SympyModelFacts.sympy_model_laws (SympyModel.resolver d) [])
    as (_ & Hnum & Hsym & Hstr & _).
  split; [apply Hnum | split].
  - apply (Hsym 0 (SympyModel.Sym "b") "b"%string); reflexivity.
  - apply (Hstr 0 "b"%string); reflexivity.
Defined.

(** C4.  With the table [{"x": "y", "y": 3}], in either insertion order,
    the symbol [x] and the string ["x"] both resolve, after one pass of the
    loop, to the float 3.0, which equals 3. *)
Theorem value_of_chained_binding (fuel : nat) :
  let d := [(KStr "x"%string, @VStr SympyModel.expr "y"%string);
            (KStr "y"%string, VNum (PyInt 3))] in
  let d' := [(KStr "y"%string, @VNum SympyModel.expr (PyInt 3));
             (KStr "x"%string, VStr "y"%string)] in
  value_of (S fuel) (SympyModel.resolver d) (VBasic (SympyModel.Sym "x")) =
    Some (VNum (PyFloat 3)) /\
  value_of (S fuel) (SympyModel.resolver d) (VStr "x"%string) =
    Some (VNum (PyFloat 3)) /\
  value_of (S fuel) (SympyModel.resolver d') (VBasic (SympyModel.Sym "x")) =
    Some (VNum (PyFloat 3)) /\
  value_of (S fuel) (SympyModel.resolver d') (VStr "x"%string) =
    Some (VNum (PyFloat 3)) /\
  py_eq (@VNum SympyModel.expr (PyFloat 3)) (VNum (PyInt 3)) = true.
Proof.
  intros d d'. repeat split.
Qed.

(** C7 (as stated).  The tables [{"x": 2}] and [{"x": 2.0}] differ in their
    single value, and the resolvers over them are equal; and a resolver
    whose table holds an unhashable object has no hash at all. *)
Lemma resolver_eq_hash_contract_counterexample :
  let a := [(KStr "x"%string, @VNum SympyModel.expr (PyInt 2))] in
  let b := [(KStr "x"%string, @VNum SympyModel.expr (PyFloat 2))] in
  let c := [(KStr "x"%string, @VObj SympyModel.expr 0)] in
  @VNum SympyModel.expr (PyInt 2) <> VNum (PyFloat 2) /\
  __eq__ (fresh_resolver a) (OResolver (fresh_resolver b)) = EqBool true /\
  __eq__ (fresh_resolver c) (OResolver (fresh_resolver c)) = EqBool true /\
  fst (__hash__ SympyModel.model_hash_item (fresh_resolver c)) = None.
Proof.
  intros a b c. repeat split. discriminate.
Qed.

(** C7 (amended).  Two resolvers whose tables hold the same entries, in any
    order, and whose caches are empty or hold the hash of their table, are
    equal; when every entry is hashable both return one and the same hash,
    the combination of the entries' hashes, also when it is asked for a
    second time, and when some entry is unhashable the hashing fails for
    both.  A resolver whose table has, under some key, a value that is not
    [==] to the value of the first is unequal, in particular the resolver of
    the table with one value replaced by such a value. *)
Theorem resolver_eq_hash_contract
  {basic : Type} {engine : Sympy basic}
  (hash_item : key basic * pyvalue basic -> option Z) (r1 r2 : ParamResolver) :
  dict_wf (param_dict r1) = true ->
  Permutation (param_dict r1) (param_dict r2) ->
  cache_coherent hash_item r1 ->
  cache_coherent hash_item r2 ->
  __eq__ r1 (OResolver r2) = EqBool true /\
  __ne__ r1 r2 = false /\
  (forallb (hashable hash_item) (param_dict r1) = true ->
   exists hv,
     hv = hash_entries (map (hash_or_zero hash_item) (param_dict r1)) /\
     fst (__hash__ hash_item r1) = Some hv /\
     fst (__hash__ hash_item r2) = Some hv /\
     fst (__hash__ hash_item (snd (__hash__ hash_item r1))) = Some hv) /\
  (forallb (hashable hash_item) (param_dict r1) = false ->
   fst (__hash__ hash_item r1) = None /\
   fst (__hash__ hash_item r2) = None) /\
  (forall c k v w,
      dict_get (param_dict r1) k = Some v ->
      dict_get (param_dict c) k = Some w ->
      py_eq v w = false ->
      __eq__ r1 (OResolver c) = EqBool false /\
      __ne__ r1 c = true) /\
  (forall k v w,
      dict_get (param_dict r1) k = Some v -> py_eq v w = false ->
      __eq__ r1 (OResolver (fresh_resolver (dict_set (param_dict r1) k w))) =
        EqBool false).
Proof.
  intros Ha HP C1 C2.
  assert (Heq : dict_eq (param_dict r1) (param_dict r2) = true)
    by now apply dict_eq_Permutation.
  assert (H1 : fst (__hash__ hash_item r1) =
               hash_frozenset hash_item (param_dict r1))
    by now apply hash_coherent.
  assert (H2 : fst (__hash__ hash_item r2) =
               hash_frozenset hash_item (param_dict r1)).
  { rewrite (hash_frozenset_Permutation hash_item _ _ Ha HP).
    now apply hash_coherent. }
  assert (Hd : forall c k v w,
             dict_get (param_dict r1) k = Some v ->
             dict_get c k = Some w -> py_eq v w = false ->
             dict_eq (param_dict r1) c = false).
  { intros c k v w. apply dict_eq_differ. }
  split; [simpl; now rewrite Heq|].
  split; [unfold __ne__; simpl; now rewrite Heq|].
  split; [|split; [|split]].
  - intros Hh. eexists. split; [reflexivity|].
    rewrite hash_cached, H1, H2.
    now rewrite (hash_frozenset_hashable hash_item _ Ha Hh).
  - intros Hh. rewrite H1, H2.
    now rewrite (hash_frozenset_unhashable hash_item _ Ha Hh).
  - intros c k v w Hv Hw Hne. unfold __ne__. simpl.
    now rewrite (Hd (param_dict c) k v w Hv Hw Hne).
  - intros k v w Hv Hne. simpl.
    now rewrite (Hd _ k v w Hv (dict_get_set_same _ k w) Hne).
Qed.

Lemma resolver_eq_hash_contract_witness :
  let a := [(KStr "x"%string, @VNum SympyModel.expr (PyInt 1));
            (KStr "y"%string, VNum (PyInt 2))] in
  let b := [(KStr "y"%string, @VNum SympyModel.expr (PyInt 2));
            (KStr "x"%string, VNum (PyInt 1))] in
  let c := [(KStr "x"%string, @VNum SympyModel.expr (PyInt 1));
            (KStr "y"%string, VNum (PyInt 5))] in
  __eq__ (fresh_resolver a) (OResolver (fresh_resolver b)) = EqBool true /\
  (exists hv,
      hv = hash_entries (map (hash_or_zero SympyModel.model_hash_item) a) /\
      fst (__hash__ SympyModel.model_hash_item (fresh_resolver a)) = Some hv /\
      fst (__hash__ SympyModel.model_hash_item (fresh_resolver b)) = Some hv) /\
  __eq__ (fresh_resolver a) (OResolver (fresh_resolver c)) = EqBool false.
Proof.
  intros a b c.
  destruct (resolver_eq_hash_contract SympyModel.model_hash_item
              (fresh_resolver a) (fresh_resolver b))
    as (Heq & _ & Hh & _ & _ & Hset);
    [reflexivity | apply perm_swap | left; reflexivity | left; reflexivity |].
  split; [exact Heq | split].
  - destruct (Hh eq_refl) as (hv & Hv & Ha & Hb & _).
    exists hv. repeat split; assumption.
  - apply (Hset (KStr "y"%string) (VNum (PyInt 2)) (VNum (PyInt 5)));
      reflexivity.
Defined.

(** C8.  The constructor applied to a resolver returns that very object and
    leaves the heap as it is; applied to a table, or to nothing, it
    allocates an object at an address that was not in use, holding that
    table, or the empty table, and leaves the existing objects alone. *)
Theorem constructor_identity
  {basic : Type} (h : @heap basic) (a : nat) (r : ParamResolver) :
  nth_error h a = Some (Some r) ->
  new_ParamResolver h (ArgResolver a) = Some (a, h) /\
  (forall d, exists a' h',
      new_ParamResolver h (ArgDict d) = Some (a', h') /\
      nth_error h a' = None /\
      nth_error h' a' = Some (Some (fresh_resolver d)) /\
      forall b, b < List.length h -> nth_error h' b = nth_error h b) /\
  (exists a' h',
      new_ParamResolver h ArgNone = Some (a', h') /\
      nth_error h a' = None /\
      nth_error h' a' = Some (Some (fresh_resolver [])) /\
      forall b, b < List.length h -> nth_error h' b = nth_error h b).
Proof.
  intros Hr.
  assert (F : forall x : ParamResolver,
             nth_error h (List.length h) = None /\
             nth_error (h ++ [Some x]) (List.length h) = Some (Some x) /\
             forall b, b < List.length h ->
                       nth_error (h ++ [Some x]) b = nth_error h b).
  { intros x. repeat split.
    - apply nth_error_None. lia.
    - rewrite nth_error_app2, Nat.sub_diag; [reflexivity | lia].
    - intros b Hb. now apply nth_error_app1. }
  split; [now apply (new_ParamResolver_resolver h a r)|]. split.
  - intros d. exists (List.length h), (h ++ [Some (fresh_resolver d)]).
    split; [apply new_ParamResolver_dict | apply F].
  - exists (List.length h), (h ++ [Some (fresh_resolver [])]).
    split; [apply new_ParamResolver_none | apply F].
Qed.

Lemma constructor_identity_witness :
  let d := [(KStr "x"%string, @VNum SympyModel.expr (PyInt 1))] in
  let h := [Some (fresh_resolver d)] in
  new_ParamResolver h (ArgResolver 0) = Some (0, h).
Proof.
  intros d h.
  apply (constructor_identity h 0 (fresh_resolver d)). reflexivity.
Defined.

(** C9.  Encoding a resolver gives the record tagged ["ParamResolver"] with
    the entries of the table in order; decoding the entries of that record
    builds a new resolver over the same table, equal to the original. *)
Theorem json_round_trip
  {basic : Type} {engine : Sympy basic} (h : heap) (self : ParamResolver) :
  dict_wf (param_dict self) = true ->
  cirq_type (_json_dict_ self) = "ParamResolver"%string /\
  json_param_dict (_json_dict_ self) = param_dict self /\
  exists r,
    _from_json_dict_ h (json_param_dict (_json_dict_ self)) =
      Some (List.length h, h ++ [Some r]) /\
    param_dict r = param_dict self /\
    __eq__ r (OResolver self) = EqBool true /\
    __eq__ self (OResolver r) = EqBool true.
Proof.
  intros Hwf. split; [reflexivity | split; [reflexivity|]].
  exists (fresh_resolver (param_dict self)).
  unfold _from_json_dict_, _json_dict_. simpl.
  rewrite (dict_of_items_items (param_dict self) Hwf).
  split; [apply new_ParamResolver_dict | split; [reflexivity|]].
  simpl. now rewrite (dict_eq_Permutation _ _ Hwf (Permutation_refl _)).
Qed.

Lemma json_round_trip_witness :
  let d := [(KBasic (SympyModel.Sym "a"), VNum (PyFloat 2));
            (KStr "b"%string, VBasic (SympyModel.Add (SympyModel.Sym "a")
                                                    (SympyModel.Num (PyInt 1))))] in
  exists r,
    _from_json_dict_ [] (json_param_dict (_json_dict_ (fresh_resolver d))) =
      Some (0, [Some r]) /\
    __eq__ r (OResolver (fresh_resolver d)) = EqBool true.
Proof.
  intros d.
  destruct (json_round_trip [] (fresh_resolver d)) as (_ & _ & r & Hdec & _ & Heq & _);
    [reflexivity|].
  exists r. split; [exact Hdec | exact Heq].
Defined.

(** C10.  The exact-match shortcut returns the bound value itself (an
    integer binding comes back as that integer), while a number that
    [value_of] obtains through the loop is a float or a complex; so a table
    that binds one name to the integer 3 and another to the expression 3
    resolves the first to the integer 3 and the second to the float 3.0. *)
Theorem exact_match_keeps_type_loop_coerces
  {basic : Type} {engine : Sympy basic}
  (self : ParamResolver) (e : basic) (name : string) (resolved : pyvalue basic) :
  kind_of e = IsSymbol name ->
  dict_get (param_dict self) (KStr name) = Some resolved ->
  is_Basic_or_str resolved = false ->
  (forall fuel, value_of fuel self (VBasic e) = Some resolved) /\
  (forall fuel x n,
      is_Number (VBasic x) = false ->
      exact_match (param_dict self) (VBasic x) = None ->
      value_of fuel self (VBasic x) = Some (VNum n) ->
      type_of n = TFloat \/ type_of n = TComplex) /\
  (let d := [(KStr "x"%string, @VNum SympyModel.expr (PyInt 3));
             (KStr "y"%string, VBasic (SympyModel.Num (PyInt 3)))] in
   py_eq (@VNum SympyModel.expr (PyInt 3)) (VBasic (SympyModel.Num (PyInt 3))) = true /\
   value_of 1 (SympyModel.resolver d) (VBasic (SympyModel.Sym "x")) =
     Some (VNum (PyInt 3)) /\
   value_of 1 (SympyModel.resolver d) (VBasic (SympyModel.Sym "y")) =
     Some (VNum (PyFloat 3)) /\
   type_of (PyInt 3) <> type_of (PyFloat 3) /\
   number_eqb (PyInt 3) (PyFloat 3) = true).
Proof.
  intros Hk Hg Hr. split; [|split].
  - intros fuel. apply value_of_exact.
    + now apply (symbol_not_Number e name).
    + now apply (exact_match_by_name _ e name).
  - intros fuel x n Hn Hm H. rewrite value_of_enters_loop in H by assumption.
    apply subs_loop_number_type in H. destruct n; simpl in *; auto. congruence.
  - repeat split. discriminate.
Qed.

Lemma exact_match_keeps_type_loop_coerces_witness :
  let d := [(KStr "x"%string, @VNum SympyModel.expr (PyInt 3));
            (KStr "y"%string, VStr "x"%string)] in
  value_of 0 (SympyModel.resolver d) (VBasic (SympyModel.Sym "x")) =
    Some (VNum (PyInt 3)) /\
  (type_of (PyFloat 3) = TFloat \/ type_of (PyFloat 3) = TComplex).
Proof.
  intros d.
  destruct (exact_match_keeps_type_loop_coerces
              (SympyModel.resolver d) (SympyModel.Sym "x") "x"%string (VNum (PyInt 3)))
    as (Hexact & Hloop & _); try reflexivity.
  split; [apply Hexact|].
  apply (Hloop 2 (SympyModel.Sym "y") (PyFloat 3)); reflexivity.
Defined.

(** * Further properties of the resolver *)

Section ResultFacts.

Context {basic : Type} {engine : Sympy basic}.

Lemma exact_match_not_Basic_or_str (d : dict basic) (v r : pyvalue basic) :
  exact_match d v = Some r -> is_Basic_or_str r = false.
Proof.
  unfold exact_match. destruct (exact_match_key d v); [|discriminate].
  destruct (dict_get d k) as [x|]; [|discriminate].
  destruct (is_Basic_or_str x) eqn:E; [discriminate|]. now intros [= <-].
Qed.

Lemma exact_match_only_Basic (d : dict basic) (v r : pyvalue basic) :
  exact_match d v = Some r -> exists e, v = VBasic e.
Proof.
  unfold exact_match, exact_match_key.
  destruct v; try discriminate. intros _. now exists e.
Qed.

Lemma subs_loop_not_str (fuel : nat) (d : dict basic) (e : basic) (r : pyvalue basic) :
  subs_loop fuel d e = Some r -> is_Basic_or_str r = false \/ exists x, r = VBasic x.
Proof.
  revert e. induction fuel as [|fuel IH]; intros e; simpl; [discriminate|].
  destruct (free_symbols (subs e d)).
  - destruct (truthy (im (subs e d))); intros [= <-]; now left.
  - destruct (negb (basic_eqb (subs e d) e)); [apply IH|].
    intros [= <-]. right. now eexists.
Qed.

(** An expression that the loop returns is one that a further pass leaves
    alone and that still has free symbols. *)
Lemma subs_loop_expression (fuel : nat) (d : dict basic) (e r : basic) :
  subs_loop fuel d e = Some (VBasic r) ->
  is_fixed_point d r = true /\ subs r d = r /\ free_symbols r <> [].
Proof.
  revert e. induction fuel as [|fuel IH]; intros e; simpl; [discriminate|].
  destruct (free_symbols (subs e d)) as [|x l] eqn:F.
  - destruct (truthy (im (subs e d))); discriminate.
  - destruct (basic_eqb (subs e d) e) eqn:E; simpl; [|apply IH].
    intros [= <-]. apply basic_eqb_true in E. rewrite E in F |- *.
    unfold is_fixed_point. rewrite E, F, basic_eqb_refl.
    repeat split; congruence.
Qed.

Lemma subs_loop_more_fuel (fuel k : nat) (d : dict basic) (e : basic)
      (r : pyvalue basic) :
  subs_loop fuel d e = Some r -> subs_loop (fuel + k) d e = Some r.
Proof.
  revert e. induction fuel as [|fuel IH]; intros e; simpl; [discriminate|].
  destruct (free_symbols (subs e d)); [trivial|].
  destruct (negb (basic_eqb (subs e d) e)); [apply IH | trivial].
Qed.

Lemma value_of_more_fuel (fuel k : nat) (self : ParamResolver)
      (v r : pyvalue basic) :
  value_of fuel self v = Some r -> value_of (fuel + k) self v = Some r.
Proof.
  unfold value_of. destruct (is_Number v); [trivial|].
  destruct (exact_match (param_dict self) _); [trivial|].
  destruct v; trivial; apply subs_loop_more_fuel.
Qed.

(** What [value_of] returns is an expression, or a value that is neither an
    expression nor a string. *)
Lemma value_of_result_kind (fuel : nat) (self : ParamResolver)
      (v r : pyvalue basic) :
  value_of fuel self v = Some r ->
  is_Basic_or_str r = false \/ exists x, r = VBasic x.
Proof.
  unfold value_of. destruct (is_Number v) eqn:N.
  - intros [= <-]. destruct v; simpl in N; try discriminate.
    + now left.
    + right. now eexists.
  - destruct (exact_match (param_dict self) _) as [y|] eqn:M.
    + apply exact_match_not_Basic_or_str in M. intros [= <-]. now left.
    + destruct v as [n|t|e|o]; try discriminate.
      * apply subs_loop_not_str.
      * apply subs_loop_not_str.
      * intros [= <-]. now left.
Qed.

End ResultFacts.

(** X1.  A name and the symbol of that name resolve alike: for every table,
    every amount of fuel and every string [s], [value_of] gives the same
    result on [s] and on [Symbol(s)]. *)
Theorem value_of_str_as_symbol
  {basic : Type} {engine : Sympy basic} (laws : SympyLaws engine)
  (fuel : nat) (self : ParamResolver) (s : string) :
  value_of fuel self (VStr s) = value_of fuel self (VBasic (Symbol s)) /\
  __getitem__ fuel self (VStr s) = __getitem__ fuel self (VBasic (Symbol s)).
Proof.
  assert (H : value_of fuel self (VStr s) = value_of fuel self (VBasic (Symbol s))).
  { unfold value_of. simpl. now rewrite (kind_of_Symbol engine laws s). }
  split; exact H.
Qed.

Lemma value_of_str_as_symbol_witness :
  let d := [(KStr "x"%string, @VStr SympyModel.expr "y"%string);
            (KStr "y"%string, VNum (PyInt 3))] in
  value_of 1 (SympyModel.resolver d) (VStr "x"%string) =
  value_of 1 (SympyModel.resolver d) (VBasic (SympyModel.Sym "x")).
Proof.
  intros d.
  apply (value_of_str_as_symbol SympyModelFacts.sympy_model_laws
           1 (SympyModel.resolver d) "x"%string).
Defined.

(** X2.  [value_of] never returns a string: whatever the input and the
    table, the result is a number, an expression or, for an input or a
    binding that is some other object, that object. *)
Theorem value_of_never_returns_str
  {basic : Type} {engine : Sympy basic}
  (fuel : nat) (self : ParamResolver) (v : pyvalue basic) (s : string) :
  value_of fuel self v <> Some (VStr s).
Proof.
  intros H. apply value_of_result_kind in H.
  destruct H as [H|[x H]].
  - discriminate H.
  - discriminate H.
Qed.

(** X3.  An expression that [value_of] returns for an input that is not a
    number cannot be resolved further by the table: it has free symbols and
    substitution leaves it unchanged. *)
Theorem value_of_expression_is_irreducible
  {basic : Type} {engine : Sympy basic}
  (fuel : nat) (self : ParamResolver) (v : pyvalue basic) (r : basic) :
  is_Number v = false ->
  value_of fuel self v = Some (VBasic r) ->
  free_symbols r <> [] /\ subs r (param_dict self) = r.
Proof.
  intros N. unfold value_of. rewrite N.
  destruct (exact_match (param_dict self) _) as [x|] eqn:M.
  - apply exact_match_not_Basic_or_str in M. intros [= ->]. discriminate.
  - destruct v as [n|t|e|o]; try discriminate;
      intros H; apply subs_loop_expression in H; tauto.
Qed.

Lemma value_of_expression_is_irreducible_witness :
  let d := [(KStr "x"%string, @VStr SympyModel.expr "y"%string)] in
  free_symbols (SympyModel.Sym "y") <> [] /\
  subs (SympyModel.Sym "y") d = SympyModel.Sym "y".
Proof.
  intros d.
  apply (value_of_expression_is_irreducible
           2 (SympyModel.resolver d) (VStr "x"%string) (SympyModel.Sym "y"));
    reflexivity.
Defined.

(** X4.  Resolution is idempotent: a result of [value_of], resolved again
    with the same table, is returned as it is after at most one pass,
    provided that, when the result is a symbol, the table has no concrete
    binding for it. *)
Theorem value_of_idempotent
  {basic : Type} {engine : Sympy basic}
  (fuel : nat) (self : ParamResolver) (v r : pyvalue basic) :
  value_of fuel self v = Some r ->
  exact_match (param_dict self) r = None ->
  forall fuel', value_of (S fuel') self r = Some r.
Proof.
  intros H M fuel'.
  destruct r as [n|s|x|o].
  - reflexivity.
  - apply value_of_result_kind in H. destruct H as [H|[y H]]; discriminate.
  - destruct (is_Number (VBasic x)) eqn:N.
    + unfold value_of. now rewrite N.
    + rewrite value_of_enters_loop by assumption.
      assert (F : is_fixed_point (param_dict self) x = true).
      { revert H. unfold value_of. destruct (is_Number v) eqn:Nv.
        - intros [= ->]. congruence.
        - match goal with
          | |- context [exact_match ?d ?w] =>
              destruct (exact_match d w) as [y|] eqn:My
          end.
          + apply exact_match_not_Basic_or_str in My. intros [= ->]. discriminate.
          + destruct v as [n|t|e|o]; try discriminate;
              intros H; now apply subs_loop_expression in H. }
      now apply subs_loop_fixed_point.
  - reflexivity.
Qed.

Lemma value_of_idempotent_witness :
  let d := [(KStr "x"%string, @VStr SympyModel.expr "y"%string)] in
  value_of 1 (SympyModel.resolver d) (VBasic (SympyModel.Sym "y")) =
    Some (VBasic (SympyModel.Sym "y")).
Proof.
  intros d.
  apply (value_of_idempotent 2 (SympyModel.resolver d) (VStr "x"%string)
           (VBasic (SympyModel.Sym "y"))); reflexivity.
Defined.

Section EqualityFacts.

Context {basic : Type} {engine : Sympy basic}.

Lemma Qeq_bool_comm (x y : Q) : Qeq_bool x y = Qeq_bool y x.
Proof.
  destruct (Qeq_bool x y) eqn:A, (Qeq_bool y x) eqn:B; try reflexivity.
  - apply Qeq_bool_sym in A. congruence.
  - apply Qeq_bool_sym in B. congruence.
Qed.

Lemma py_eq_sym (v w : pyvalue basic) : py_eq v w = py_eq w v.
Proof.
  destruct v, w; simpl; try reflexivity.
  - unfold number_eqb.
    now rewrite (Qeq_bool_comm (number_re n)), (Qeq_bool_comm (number_im n)).
  - apply String.eqb_sym.
  - unfold basic_eqb.
    destruct (basic_eq_dec e e0), (basic_eq_dec e0 e); congruence.
  - apply Nat.eqb_sym.
Qed.

Lemma In_dict_keys (d : dict basic) (k : key basic) :
  In k (dict_keys d) -> exists v, In (k, v) d.
Proof.
  unfold dict_keys. intros H. apply in_map_iff in H.
  destruct H as [[k' v] [Hk Hin]]. simpl in Hk. subst k'. now exists v.
Qed.

Lemma dict_eq_true (a b : dict basic) :
  dict_eq a b = true <->
  List.length a = List.length b /\
  forall k v, In (k, v) a ->
              exists w, dict_get b k = Some w /\ py_eq v w = true.
Proof.
  unfold dict_eq. rewrite andb_true_iff, Nat.eqb_eq, forallb_forall.
  split; intros [Hl Ha]; (split; [exact Hl|]).
  - intros k v Hin. specialize (Ha (k, v) Hin). simpl in Ha.
    destruct (dict_get b k) as [w|]; [|discriminate]. now exists w.
  - intros [k v] Hin. simpl. destruct (Ha k v Hin) as (w & Hw & He).
    now rewrite Hw.
Qed.

Lemma dict_eq_sym_true (a b : dict basic) :
  dict_wf a = true -> dict_wf b = true ->
  dict_eq a b = true -> dict_eq b a = true.
Proof.
  intros Ha Hb H. apply dict_eq_true in H. destruct H as [Hl Hall].
  apply dict_eq_true. split; [now symmetry|].
  assert (Hincl : incl (dict_keys b) (dict_keys a)).
  { apply NoDup_length_incl.
    - now apply dict_wf_NoDup.
    - unfold dict_keys. rewrite !length_map. lia.
    - intros k Hk. apply In_dict_keys in Hk. destruct Hk as [v Hin].
      destruct (Hall k v Hin) as (w & Hw & _).
      apply dict_get_In in Hw. now apply (in_map fst) in Hw. }
  intros k w Hin.
  assert (Hk : In k (dict_keys a)).
  { apply Hincl. now apply (in_map fst) in Hin. }
  apply In_dict_keys in Hk. destruct Hk as [v Hv].
  exists v. split; [now apply dict_wf_get|].
  destruct (Hall k v Hv) as (w' & Hw' & He).
  rewrite (dict_wf_get b k w Hb Hin) in Hw'. injection Hw' as <-.
  now rewrite py_eq_sym.
Qed.

End EqualityFacts.

(** X6.  Equality of resolvers is reflexive and symmetric: a resolver
    equals itself, and [r1 == r2] and [r2 == r1] give the same answer; a
    comparison with an object that is not a resolver is not decided
    ([NotImplemented]). *)
Theorem resolver_eq_reflexive_symmetric
  {basic : Type} {engine : Sympy basic} (r1 r2 : ParamResolver) :
  dict_wf (param_dict r1) = true ->
  dict_wf (param_dict r2) = true ->
  __eq__ r1 (OResolver r1) = EqBool true /\
  __eq__ r1 (OResolver r2) = __eq__ r2 (OResolver r1) /\
  __ne__ r1 r2 = __ne__ r2 r1 /\
  forall v, __eq__ r1 (OForeign v) = NotImplemented.
Proof.
  intros H1 H2.
  assert (S : dict_eq (param_dict r1) (param_dict r2) =
              dict_eq (param_dict r2) (param_dict r1)).
  { destruct (dict_eq (param_dict r1) (param_dict r2)) eqn:A,
             (dict_eq (param_dict r2) (param_dict r1)) eqn:B; try reflexivity.
    - apply dict_eq_sym_true in A; congruence.
    - apply dict_eq_sym_true in B; congruence. }
  repeat split.
  - simpl. now rewrite (dict_eq_Permutation _ _ H1 (Permutation_refl _)).
  - simpl. now rewrite S.
  - unfold __ne__. simpl. now rewrite S.
Qed.

Lemma resolver_eq_reflexive_symmetric_witness :
  let a := [(KStr "x"%string, @VNum SympyModel.expr (PyInt 2));
            (KStr "y"%string, VBasic (SympyModel.Num (PyInt 1)))] in
  let b := [(KStr "y"%string, @VNum SympyModel.expr (PyFloat 1));
            (KStr "x"%string, VNum (PyFloat 2))] in
  __eq__ (fresh_resolver a) (OResolver (fresh_resolver b)) =
  __eq__ (fresh_resolver b) (OResolver (fresh_resolver a)).
Proof.
  intros a b.
  apply (resolver_eq_reflexive_symmetric (fresh_resolver a) (fresh_resolver b));
    reflexivity.
Defined.

Section EqualHashFacts.

Context {basic : Type} {engine : Sympy basic}.

Variable hash_item : key basic * pyvalue basic -> option Z.

Lemma hash_all_ext (l l' : list (key basic * pyvalue basic)) :
  map hash_item l = map hash_item l' ->
  hash_all hash_item l = hash_all hash_item l'.
Proof.
  revert l'. induction l as [|x l IH]; intros [|y l']; simpl; try discriminate.
  - reflexivity.
  - intros [= H1 H2]. now rewrite H1, (IH l' H2).
Qed.

(* the entries of [a], each with the value [b] holds under its key *)
Lemma dict_eq_aligned (a b : dict basic) :
  dict_wf a = true -> dict_wf b = true -> dict_eq a b = true ->
  exists b',
    Permutation b' b /\ dict_wf b' = true /\
    List.length b' = List.length a /\
    forall i x y, nth_error a i = Some x -> nth_error b' i = Some y ->
                  item_eqb x y = true.
Proof.
  intros Ha Hb H. apply dict_eq_true in H. destruct H as [Hl Hall].
  set (f := fun kv : key basic * pyvalue basic =>
              (fst kv, match dict_get b (fst kv) with
                       | Some w => w
                       | None => snd kv
                       end)).
  assert (Hkeys : dict_keys (map f a) = dict_keys a).
  { unfold dict_keys. rewrite map_map. now apply map_ext. }
  assert (Hwf : dict_wf (map f a) = true).
  { apply dict_wf_NoDup. rewrite Hkeys. now apply dict_wf_NoDup. }
  exists (map f a). repeat split.
  - apply NoDup_Permutation_bis.
    + apply (NoDup_map_inv fst). now apply dict_wf_NoDup in Hwf.
    + rewrite length_map. lia.
    + intros [k w] Hin. apply in_map_iff in Hin.
      destruct Hin as [[k' v] [Hf Hin]]. unfold f in Hf. simpl in Hf.
      destruct (Hall k' v Hin) as (w' & Hw' & _). rewrite Hw' in Hf.
      injection Hf as <- <-. now apply dict_get_In.
  - exact Hwf.
  - apply length_map.
  - intros i [k v] y Hx Hy. rewrite nth_error_map, Hx in Hy. simpl in Hy.
    injection Hy as <-. unfold item_eqb, f. simpl. rewrite key_eqb_refl. simpl.
    destruct (Hall k v (nth_error_In _ _ Hx)) as (w & Hw & He). now rewrite Hw.
Qed.

Lemma map_hash_aligned (a b' : list (key basic * pyvalue basic)) :
  (forall x y, item_eqb x y = true -> hash_item x = hash_item y) ->
  List.length b' = List.length a ->
  (forall i x y, nth_error a i = Some x -> nth_error b' i = Some y ->
                 item_eqb x y = true) ->
  map hash_item a = map hash_item b'.
Proof.
  intros R. revert b'. induction a as [|x a IH]; intros [|y b'] Hl Hn;
    simpl in *; try discriminate; [reflexivity|].
  f_equal.
  - apply R. now apply (Hn 0).
  - apply IH; [lia|]. intros i. apply (Hn (S i)).
Qed.

Lemma hash_frozenset_dict_eq (a b : dict basic) :
  (forall x y, item_eqb x y = true -> hash_item x = hash_item y) ->
  dict_wf a = true -> dict_wf b = true -> dict_eq a b = true ->
  hash_frozenset hash_item a = hash_frozenset hash_item b.
Proof.
  intros R Ha Hb H.
  destruct (dict_eq_aligned a b Ha Hb H) as (b' & HP & Hwf & Hl & Hn).
  rewrite <- (hash_frozenset_Permutation hash_item b' b Hwf HP).
  unfold hash_frozenset. rewrite (frozenset_dict a Ha), (frozenset_dict b' Hwf).
  now rewrite (hash_all_ext a b' (map_hash_aligned a b' R Hl Hn)).
Qed.

End EqualHashFacts.

Module SympyModelHashFacts.
Import SympyModel.

Lemma number_hash_respects (m n : number) :
  number_eqb m n = true -> number_hash m = number_hash n.
Proof.
  unfold number_eqb, number_hash. intros H.
  apply andb_true_iff in H. destruct H as [Hr Hi].
  apply Qeq_bool_iff, Qred_complete in Hr.
  apply Qeq_bool_iff, Qred_complete in Hi.
  now rewrite Hr, Hi.
Qed.

Lemma value_hash_respects (v w : pyvalue expr) :
  py_eq v w = true -> value_hash v = value_hash w.
Proof.
  destruct v as [m|s|e|i], w as [n|t|f|j]; simpl; try discriminate.
  - apply number_hash_respects.
  - destruct f; simpl; try discriminate. intros H. symmetry.
    now apply number_hash_respects.
  - intros H. apply String.eqb_eq in H. now subst.
  - destruct e; simpl; try discriminate. apply number_hash_respects.
  - intros H. apply basic_eqb_true in H. now subst.
  - intros H. apply Nat.eqb_eq in H. now subst.
Qed.

Lemma value_hash_item_respects (x y : key expr * pyvalue expr) :
  item_eqb x y = true -> value_hash_item x = value_hash_item y.
Proof.
  unfold item_eqb, value_hash_item. intros H.
  apply andb_true_iff in H. destruct H as [Hk Hv].
  apply key_eqb_true in Hk. apply value_hash_respects in Hv.
  now rewrite Hk, Hv.
Qed.

End SympyModelHashFacts.

(** X7.  Equal resolvers have equal hashes: when the hash of an entry
    agrees on equal entries (as Python requires of [hash]) and the entries
    of the first table are hashable, two resolvers that compare equal both
    return a hash, and the same one, the combination of the entries' hashes
    of the first table, even if the tables hold equal but different values
    (2 and 2.0) in a different order. *)
Theorem equal_resolvers_hash_equal
  {basic : Type} {engine : Sympy basic}
  (hash_item : key basic * pyvalue basic -> option Z) (r1 r2 : ParamResolver) :
  (forall x y, item_eqb x y = true -> hash_item x = hash_item y) ->
  dict_wf (param_dict r1) = true ->
  dict_wf (param_dict r2) = true ->
  cache_coherent hash_item r1 ->
  cache_coherent hash_item r2 ->
  forallb (hashable hash_item) (param_dict r1) = true ->
  __eq__ r1 (OResolver r2) = EqBool true ->
  exists hv,
    hv = hash_entries (map (hash_or_zero hash_item) (param_dict r1)) /\
    fst (__hash__ hash_item r1) = Some hv /\
    fst (__hash__ hash_item r2) = Some hv.
Proof.
  intros R Ha Hb C1 C2 Hh H. simpl in H. injection H as H.
  eexists. split; [reflexivity|].
  rewrite !hash_coherent by assumption. unfold dict_items.
  rewrite <- (hash_frozenset_dict_eq hash_item _ _ R Ha Hb H).
  rewrite (hash_frozenset_hashable hash_item _ Ha Hh).
  split; reflexivity.
Qed.

Lemma equal_resolvers_hash_equal_witness :
  let a := [(KStr "x"%string, @VNum SympyModel.expr (PyInt 2));
            (KStr "y"%string, VBasic (SympyModel.Num (PyInt 1)))] in
  let b := [(KStr "y"%string, @VNum SympyModel.expr (PyFloat 1));
            (KStr "x"%string, VNum (PyFloat 2))] in
  exists hv,
    hv = hash_entries (map (hash_or_zero SympyModel.value_hash_item) a) /\
    fst (__hash__ SympyModel.value_hash_item (fresh_resolver a)) = Some hv /\
    fst (__hash__ SympyModel.value_hash_item (fresh_resolver b)) = Some hv.
Proof.
  intros a b.
  apply (equal_resolvers_hash_equal SympyModel.value_hash_item
           (fresh_resolver a) (fresh_resolver b));
    [exact SympyModelHashFacts.value_hash_item_respects
    | reflexivity | reflexivity | left; reflexivity | left; reflexivity
    | reflexivity | reflexivity].
Defined.

(** X8.  The cached hash stays the hash of the table: a resolver fresh from
    the constructor has a coherent cache, and on a resolver with a coherent
    cache [__hash__] returns the hash of the frozenset of the entries,
    leaves the table alone, leaves the cache coherent, and answers a second
    call in the same way without changing the resolver again. *)
Theorem hash_cache_invariant
  {basic : Type} {engine : Sympy basic}
  (hash_item : key basic * pyvalue basic -> option Z) (self : ParamResolver) :
  cache_coherent hash_item self ->
  fst (__hash__ hash_item self) =
    hash_frozenset hash_item (dict_items (param_dict self)) /\
  param_dict (snd (__hash__ hash_item self)) = param_dict self /\
  cache_coherent hash_item (snd (__hash__ hash_item self)) /\
  __hash__ hash_item (snd (__hash__ hash_item self)) =
    (fst (__hash__ hash_item self), snd (__hash__ hash_item self)) /\
  (forall d, cache_coherent hash_item (fresh_resolver d)).
Proof.
  intros C. split; [now apply hash_coherent|].
  assert (G : param_dict (snd (__hash__ hash_item self)) = param_dict self /\
              cache_coherent hash_item (snd (__hash__ hash_item self)) /\
              __hash__ hash_item (snd (__hash__ hash_item self)) =
                (fst (__hash__ hash_item self), snd (__hash__ hash_item self))).
  { unfold __hash__. destruct (_param_hash self) as [c|] eqn:E; simpl.
    - rewrite E. repeat split. exact C.
    - destruct (hash_frozenset hash_item (dict_items (param_dict self))) as [x|] eqn:F;
        simpl.
      + repeat split. right. simpl. now rewrite F.
      + rewrite E, F. repeat split. now left. }
  destruct G as (G1 & G2 & G3). repeat split; try assumption.
  intros d. now left.
Qed.

Lemma hash_cache_invariant_witness :
  let d := [(KStr "x"%string, @VNum SympyModel.expr (PyInt 2))] in
  fst (__hash__ SympyModel.value_hash_item (fresh_resolver d)) =
    hash_frozenset SympyModel.value_hash_item d.
Proof.
  intros d.
  apply (hash_cache_invariant SympyModel.value_hash_item (fresh_resolver d)).
  left. reflexivity.
Defined.

Section HeapFacts.

Context {basic : Type}.

Lemma heap_initialised_nth (h : @heap basic) (a : nat) :
  heap_initialised h = true -> a < List.length h ->
  exists r, nth_error h a = Some (Some r).
Proof.
  unfold heap_initialised. intros H Ha.
  destruct (nth_error h a) as [o|] eqn:E.
  - rewrite forallb_forall in H. specialize (H o (nth_error_In _ _ E)).
    destruct o as [r|]; [now exists r | discriminate].
  - apply nth_error_None in E. lia.
Qed.

Lemma heap_initialised_alloc (h : @heap basic) (r : ParamResolver) :
  heap_initialised h = true -> heap_initialised (h ++ [Some r]) = true.
Proof.
  unfold heap_initialised. intros H. rewrite forallb_app, H. reflexivity.
Qed.

End HeapFacts.

(** X9.  On a heap where every object is initialised, the constructor
    succeeds for every argument (a resolver argument being an object of the
    heap), returns an object of the new heap that holds the table the
    argument stands for, keeps every object initialised, and wrapping the
    returned object once more gives that object and the same heap. *)
Theorem constructor_keeps_heap_initialised
  {basic : Type} (h : @heap basic) (arg : ctor_arg) :
  heap_initialised h = true ->
  arg_valid h arg = true ->
  exists a h' r,
    new_ParamResolver h arg = Some (a, h') /\
    heap_initialised h' = true /\
    nth_error h' a = Some (Some r) /\
    arg_table h arg = Some (param_dict r) /\
    new_ParamResolver h' (ArgResolver a) = Some (a, h').
Proof.
  intros Hh Hv.
  assert (F : forall r : ParamResolver,
             nth_error (h ++ [Some r]) (List.length h) = Some (Some r)).
  { intros r. rewrite nth_error_app2, Nat.sub_diag; [reflexivity | lia]. }
  destruct arg as [|d|a]; simpl in Hv.
  - exists (List.length h), (h ++ [Some (fresh_resolver [])]), (fresh_resolver []).
    repeat split.
    + apply new_ParamResolver_none.
    + now apply heap_initialised_alloc.
    + apply F.
    + now apply (new_ParamResolver_resolver _ _ (fresh_resolver [])).
  - exists (List.length h), (h ++ [Some (fresh_resolver d)]), (fresh_resolver d).
    repeat split.
    + apply new_ParamResolver_dict.
    + now apply heap_initialised_alloc.
    + apply F.
    + now apply (new_ParamResolver_resolver _ _ (fresh_resolver d)).
  - apply Nat.ltb_lt in Hv.
    destruct (heap_initialised_nth h a Hh Hv) as [r Hr].
    exists a, h, r. repeat split.
    + now apply (new_ParamResolver_resolver h a r).
    + exact Hh.
    + exact Hr.
    + simpl. now rewrite Hr.
    + now apply (new_ParamResolver_resolver h a r).
Qed.

Lemma constructor_keeps_heap_initialised_witness :
  let d := [(KStr "x"%string, @VNum SympyModel.expr (PyInt 1))] in
  let h := [Some (fresh_resolver d)] in
  exists a h' r,
    new_ParamResolver h (ArgResolver 0) = Some (a, h') /\
    heap_initialised h' = true /\
    nth_error h' a = Some (Some r) /\
    arg_table h (ArgResolver 0) = Some (param_dict r) /\
    new_ParamResolver h' (ArgResolver a) = Some (a, h').
Proof.
  intros d h.
  apply (constructor_keeps_heap_initialised h (ArgResolver 0)); reflexivity.
Defined.

Section DecodeFacts.

Context {basic : Type} {engine : Sympy basic}.

Lemma key_eqb_sym (a b : key basic) : key_eqb a b = key_eqb b a.
Proof.
  destruct (key_eqb a b) eqn:A, (key_eqb b a) eqn:B; try reflexivity.
  - apply key_eqb_true in A. subst. now rewrite key_eqb_refl in B.
  - apply key_eqb_true in B. subst. now rewrite key_eqb_refl in A.
Qed.

Lemma dict_get_set (d : dict basic) (k k' : key basic) (v : pyvalue basic) :
  dict_get (dict_set d k v) k' =
    if key_eqb k' k then Some v else dict_get d k'.
Proof.
  induction d as [|[k0 v0] d IH]; simpl.
  - reflexivity.
  - destruct (key_eqb k k0) eqn:E; simpl.
    + apply key_eqb_true in E. subst k0. now destruct (key_eqb k' k).
    + rewrite IH. destruct (key_eqb k' k0) eqn:E0; [|reflexivity].
      apply key_eqb_true in E0. subst k0.
      now rewrite key_eqb_sym, E.
Qed.

Lemma dict_set_wf (d : dict basic) (k : key basic) (v : pyvalue basic) :
  dict_wf d = true -> dict_wf (dict_set d k v) = true.
Proof.
  induction d as [|[k0 v0] d IH]; simpl; [reflexivity|].
  rewrite andb_true_iff, negb_true_iff. intros [Hk Hd].
  destruct (key_eqb k k0) eqn:E; simpl.
  - now rewrite Hk, Hd.
  - rewrite (IH Hd), andb_true_r, negb_true_iff.
    unfold dict_contains in *. rewrite dict_get_set.
    now rewrite key_eqb_sym, E.
Qed.

Lemma dict_get_app (a b : dict basic) (k : key basic) :
  dict_get (a ++ b) k =
    match dict_get a k with
    | Some v => Some v
    | None => dict_get b k
    end.
Proof.
  induction a as [|[k0 v0] a IH]; simpl; [reflexivity|].
  now destruct (key_eqb k k0).
Qed.

Lemma fold_dict_set_wf (l acc : dict basic) :
  dict_wf acc = true ->
  dict_wf (fold_left (fun d kv => dict_set d (fst kv) (snd kv)) l acc) = true.
Proof.
  revert acc. induction l as [|[k v] l IH]; intros acc H; simpl; [exact H|].
  apply IH. now apply dict_set_wf.
Qed.

Lemma fold_dict_set_get (l acc : dict basic) (k : key basic) :
  dict_get (fold_left (fun d kv => dict_set d (fst kv) (snd kv)) l acc) k =
    match dict_get (rev l) k with
    | Some v => Some v
    | None => dict_get acc k
    end.
Proof.
  revert acc. induction l as [|[k0 v0] l IH]; intros acc; simpl; [reflexivity|].
  rewrite IH, dict_get_app, dict_get_set. simpl.
  destruct (dict_get (rev l) k); [reflexivity|].
  now destruct (key_eqb k k0).
Qed.

End DecodeFacts.

(** X10.  Decoding any sequence of pairs succeeds and gives a new resolver
    with no cached hash whose table has distinct keys and binds every key to
    the value of its last occurrence in the sequence; a sequence whose keys
    are distinct is taken over as it is, in order. *)
Theorem from_json_dict_last_binding_wins
  {basic : Type} {engine : Sympy basic}
  (h : heap) (l : list (key basic * pyvalue basic)) :
  exists r,
    _from_json_dict_ h l = Some (List.length h, h ++ [Some r]) /\
    _param_hash r = None /\
    dict_wf (param_dict r) = true /\
    (forall k, dict_get (param_dict r) k = dict_get (rev l) k) /\
    (dict_wf l = true -> param_dict r = l).
Proof.
  exists (fresh_resolver (dict_of_items l)). repeat split.
  - apply new_ParamResolver_dict.
  - simpl. now apply fold_dict_set_wf.
  - intros k. simpl. unfold dict_of_items. rewrite fold_dict_set_get.
    now destruct (dict_get (rev l) k).
  - intros H. simpl. now apply dict_of_items_items.
Qed.

(** X11.  What a resolver with a well-formed table shows is kept by the
    round trip through its encoding: the decoded resolver iterates over the
    same keys in the same order, has the same truth value, resolves every
    input to the same result, and, the original's cache being coherent,
    has the same hash. *)
Theorem json_round_trip_observations
  {basic : Type} {engine : Sympy basic}
  (hash_item : key basic * pyvalue basic -> option Z)
  (h : heap) (self : ParamResolver) :
  dict_wf (param_dict self) = true ->
  cache_coherent hash_item self ->
  exists r,
    _from_json_dict_ h (json_param_dict (_json_dict_ self)) =
      Some (List.length h, h ++ [Some r]) /\
    __iter__ r = __iter__ self /\
    __bool__ r = __bool__ self /\
    (forall fuel v, value_of fuel r v = value_of fuel self v) /\
    fst (__hash__ hash_item r) = fst (__hash__ hash_item self).
Proof.
  intros Hwf C. exists (fresh_resolver (param_dict self)).
  unfold _from_json_dict_, _json_dict_. simpl.
  rewrite (dict_of_items_items (param_dict self) Hwf).
  repeat split.
  - apply new_ParamResolver_dict.
  - rewrite !hash_coherent; [reflexivity | exact C | now left].
Qed.

Lemma json_round_trip_observations_witness :
  let d := [(KStr "b"%string, @VNum SympyModel.expr (PyInt 1));
            (KStr "a"%string, VStr "b"%string)] in
  exists r,
    _from_json_dict_ [] (json_param_dict (_json_dict_ (fresh_resolver d))) =
      Some (0, [Some r]) /\
    __iter__ r = [KStr "b"%string; KStr "a"%string].
Proof.
  intros d.
  destruct (json_round_trip_observations SympyModel.value_hash_item []
              (fresh_resolver d)) as (r & Hdec & Hiter & _);
    [reflexivity | left; reflexivity |].
  exists r. split; [exact Hdec | exact Hiter].
Defined.

(** X12.  Every name that iteration yields is bound, and indexing the
    resolver with that name returns the bound value itself, without a pass
    of the loop, when the value is neither a string nor an expression. *)
Theorem iterated_name_resolves
  {basic : Type} {engine : Sympy basic} (laws : SympyLaws engine)
  (self : ParamResolver) (s : string) :
  In (KStr s) (__iter__ self) ->
  exists v,
    dict_get (param_dict self) (KStr s) = Some v /\
    (is_Basic_or_str v = false ->
     forall fuel, __getitem__ fuel self (VStr s) = Some v).
Proof.
  intros Hin. apply dict_contains_keys in Hin. unfold dict_contains in Hin.
  destruct (dict_get (param_dict self) (KStr s)) as [v|] eqn:E; [|discriminate].
  exists v. split; [reflexivity|]. intros Hv fuel.
  unfold __getitem__, value_of. simpl.
  now rewrite (exact_match_by_name _ (Symbol s) s v
                 (kind_of_Symbol engine laws s) E Hv).
Qed.

Lemma iterated_name_resolves_witness :
  let d := [(KStr "x"%string, @VNum SympyModel.expr (PyInt 5))] in
  exists v,
    dict_get d (KStr "x"%string) = Some v /\
    (is_Basic_or_str v = false ->
     forall fuel, __getitem__ fuel (SympyModel.resolver d) (VStr "x"%string) = Some v).
Proof.
  intros d.
  apply (iterated_name_resolves SympyModelFacts.sympy_model_laws
           (SympyModel.resolver d) "x"%string).
  left. reflexivity.
Defined.

(** * Properties of the Bell inequality example *)

Module BellInequalityFacts.
Import BellInequality.

Lemma bitstring_cons (e : bool) (bits : list bool) :
  bitstring (e :: bits) =
    String (if e then "1"%char else "_"%char) (bitstring bits).
Proof.
  unfold bitstring. destruct bits as [|e' bits]; destruct e; reflexivity.
Qed.

Lemma outcomes_length (a b x y : list bool) (n : nat) :
  List.length a = n -> List.length b = n ->
  List.length x = n -> List.length y = n ->
  List.length (outcomes a b x y) = n.
Proof.
  intros Ha Hb Hx Hy. unfold outcomes.
  rewrite length_map, !length_combine. lia.
Qed.

Lemma wins_le (o : list bool) : wins o <= List.length o.
Proof. apply filter_length_le. Qed.

Lemma wins_all (o : list bool) :
  wins o = List.length o <-> forallb (fun e : bool => e) o = true.
Proof.
  unfold wins. induction o as [|e o IH]; simpl; [tauto|].
  pose proof (filter_length_le (fun e : bool => e) o) as L.
  destruct e; simpl.
  - rewrite <- IH. lia.
  - split; [lia | discriminate].
Qed.

Lemma Zpos_of_nat (n : nat) : n <> 0 -> Z.pos (Pos.of_nat n) = Z.of_nat n.
Proof.
  intros H. rewrite <- (Nat2Pos.id n H) at 2. now rewrite positive_nat_Z.
Qed.

Lemma win_percent_defined (o : list bool) (repetitions : nat) :
  repetitions <> 0 ->
  win_percent o repetitions =
    Some (Qmake (Z.of_nat (wins o) * 100) (Pos.of_nat repetitions)).
Proof. unfold win_percent. destruct repetitions; congruence. Qed.

End BellInequalityFacts.

(** X13.  [bitstring] writes one character per bit, ['1'] for a true bit
    and ['_'] for a false one, so the string is as long as the list, and it
    determines the list: different lists of bits give different strings. *)
Theorem bitstring_faithful (bits : list bool) :
  String.length (BellInequality.bitstring bits) = List.length bits /\
  (forall i,
      String.get i (BellInequality.bitstring bits) =
        option_map (fun e : bool => if e then "1"%char else "_"%char)
                   (nth_error bits i)) /\
  (forall bits',
      BellInequality.bitstring bits = BellInequality.bitstring bits' ->
      bits = bits').
Proof.
  repeat split.
  - induction bits as [|e bits IH]; [reflexivity|].
    rewrite BellInequalityFacts.bitstring_cons. simpl. now rewrite IH.
  - induction bits as [|e bits IH]; intros i.
    + now destruct i.
    + rewrite BellInequalityFacts.bitstring_cons.
      destruct i as [|i]; simpl; [reflexivity | apply IH].
  - induction bits as [|e bits IH]; intros [|e' bits'];
      rewrite ?BellInequalityFacts.bitstring_cons; try discriminate.
    + reflexivity.
    + intros [= Hc Hs]. f_equal; [|now apply IH].
      destruct e, e'; try reflexivity; discriminate.
Qed.

(** X14.  The win rate of a run of [repetitions] > 0 rounds, each column
    with one bit per round, is a percentage between 0 and 100, and it is 100
    exactly when every round satisfies the winning condition; with no
    repetition the division fails. *)
Theorem win_percent_bounds (a b x y : list bool) (repetitions : nat) :
  List.length a = repetitions ->
  List.length b = repetitions ->
  List.length x = repetitions ->
  List.length y = repetitions ->
  repetitions <> 0 ->
  exists q,
    BellInequality.win_percent (BellInequality.outcomes a b x y) repetitions = Some q /\
    (0 <= q)%Q /\ (q <= 100)%Q /\
    (q == 100 <->
     forallb (fun e : bool => e) (BellInequality.outcomes a b x y) = true)%Q /\
    BellInequality.win_percent (BellInequality.outcomes a b x y) 0 = None.
Proof.
  intros Ha Hb Hx Hy Hr.
  pose proof (BellInequalityFacts.outcomes_length a b x y repetitions Ha Hb Hx Hy) as Hl.
  pose proof (BellInequalityFacts.wins_le (BellInequality.outcomes a b x y)) as Hw.
  pose proof (BellInequalityFacts.wins_all (BellInequality.outcomes a b x y)) as Hall.
  pose proof (BellInequalityFacts.Zpos_of_nat repetitions Hr) as Hp.
  rewrite Hl in Hw, Hall.
  rewrite (BellInequalityFacts.win_percent_defined _ repetitions Hr).
  eexists. split; [reflexivity|].
  unfold Qle, Qeq. cbn [Qnum Qden]. rewrite Hp. repeat split; try lia.
  - intros H. apply Hall. lia.
  - intros H. apply Hall in H. lia.
Qed.

Lemma win_percent_bounds_witness :
  exists q,
    BellInequality.win_percent
      (BellInequality.outcomes [true; false; true] [true; true; false]
                               [false; true; true] [true; true; true]) 3 = Some q /\
    (0 <= q)%Q /\ (q <= 100)%Q.
Proof.
  destruct (win_percent_bounds [true; false; true] [true; true; false]
                               [false; true; true] [true; true; true] 3)
    as (q & Hq & H0 & H100 & _); try reflexivity; [discriminate|].
  exists q. repeat split; assumption.
Defined.

(** X15.  The classical bound of the CHSH game: whatever deterministic
    answers Alice and Bob give to their input bits, at most three of the
    four input pairs satisfy [a XOR b = x AND y], that is a win rate of at
    most 75%, and always answering 0 reaches it. *)
Theorem classical_strategy_wins_at_most_three (alice bob : bool -> bool) :
  let xs := [false; false; true; true] in
  let ys := [false; true; false; true] in
  BellInequality.wins (BellInequality.outcomes (map alice xs) (map bob ys) xs ys) <= 3 /\
  (exists q,
      BellInequality.win_percent
        (BellInequality.outcomes (map alice xs) (map bob ys) xs ys) 4 = Some q /\
      (q <= 75)%Q) /\
  BellInequality.win_percent
    (BellInequality.outcomes (map (fun _ => false) xs) (map (fun _ => false) ys) xs ys) 4
    = Some (Qmake 300 4).
Proof.
  intros xs ys. subst xs ys. repeat split.
  - cbn. destruct (alice false), (alice true), (bob false), (bob true); cbn; lia.
  - eexists. split; [reflexivity|].
    unfold Qle. cbn.
    destruct (alice false), (alice true), (bob false), (bob true); cbn; lia.
Qed.

(** X16.  A concrete value bound to the variable object is masked when the
    name of the variable is bound to a string or an expression: the lookup
    then selects the name, the shortcut does not apply, and the symbol goes
    to the substitution loop, so that no result exists before a first pass. *)
Theorem symbol_binding_masked_by_name
  {basic : Type} {engine : Sympy basic}
  (self : ParamResolver) (e : basic) (name : string) (by_symbol by_name : pyvalue basic) :
  kind_of e = IsSymbol name ->
  dict_get (param_dict self) (KBasic e) = Some by_symbol ->
  is_Basic_or_str by_symbol = false ->
  dict_get (param_dict self) (KStr name) = Some by_name ->
  is_Basic_or_str by_name = true ->
  exact_match (param_dict self) (VBasic e) = None /\
  value_of 0 self (VBasic e) = None /\
  forall fuel, value_of fuel self (VBasic e) = subs_loop fuel (param_dict self) e.
Proof.
  intros Hk Hs Hc Hn Ha.
  assert (M : exact_match (param_dict self) (VBasic e) = None).
  { unfold exact_match. rewrite (exact_match_key_symbol _ e name Hk).
    unfold dict_contains. now rewrite Hn, Hn, Ha. }
  pose proof (symbol_not_Number e name Hk) as N.
  repeat split.
  - exact M.
  - now rewrite value_of_enters_loop.
  - intros fuel. now apply value_of_enters_loop.
Qed.

Lemma symbol_binding_masked_by_name_witness :
  let d := [(KBasic (SympyModel.Sym "x"), VNum (PyInt 1));
            (KStr "x"%string, VStr "y"%string)] in
  value_of 0 (SympyModel.resolver d) (VBasic (SympyModel.Sym "x")) = None.
Proof.
  intros d.
  destruct (symbol_binding_masked_by_name
              (SympyModel.resolver d) (SympyModel.Sym "x") "x"%string
              (VNum (PyInt 1)) (VStr "y"%string)) as (_ & H & _);
    [reflexivity | reflexivity | reflexivity | reflexivity | reflexivity |].
  exact H.
Defined.
